(** * PaX SEGVGUARD: a shallow embedding of sys/hardenedbsd/hbsd_pax_segvguard.c

    The file models the crash-tracking table, the policy resolver and the
    two entry points of the segvguard feature, and states the properties of
    the specification against them.

    Conventions of the embedding.
    - C integers are [Z]; where the source converts between an [int] and an
      unsigned type ([uint32_t status], [size_t se_ncrashes]) the
      conversion is written out with [mod]; the [int] product that arms a
      countdown (seconds times [hz]) is reduced to an [int] with [to_int].
    - Constants, types and helpers that live in headers outside this file
      ([sys/pax.h], [sys/stat.h], [sys/errno.h], [sys/mount.h],
      [sys/fnv_hash.h], the width of [size_t], the tick rate [hz]) are the
      fields of the class [kernel_headers]: every definition and theorem is
      parametric in them.  [hbsd_amd64] is one concrete instance, used to
      run the model.
    - User ids and file serial numbers are [Z]: [se_inode] and [va_fileid]
      are taken to be of one type, and so are [se_uid] and [cr_ruid].
    - A pointer to a table entry is a pair (bucket index, position in the
      bucket's list).
    - Results of the VFS calls ([VOP_ISLOCKED], [vn_lock], [VOP_GETATTR]) and
      of [malloc(M_NOWAIT)] are inputs of the call that makes them: the
      source calls [VOP_GETATTR] once in the lookup and once more in the
      insertion, and nothing ties the two outcomes together.
    - The model is sequential: each entry point runs alone on the table.
      The per-bucket mutexes are not part of the state; the order in which
      each function locks and unlocks them is modelled apart, as the list
      of its mutex operations (the functions named [_mtx]).
    - [KASSERT] is the production build's (it expands to nothing). *)

From stdpp Require Import base list gmap strings.
From Stdlib Require Import ZArith Lia.

Local Open Scope Z_scope.

(** ** Header constants and helpers the source takes from elsewhere *)

Class kernel_headers := {
  (* sys/pax.h *)
  PAX_NOTE_SEGVGUARD : Z;
  PAX_NOTE_NOSEGVGUARD : Z;
  PAX_FEATURE_DISABLED : Z;
  PAX_FEATURE_OPTIN : Z;
  PAX_FEATURE_OPTOUT : Z;
  PAX_FEATURE_FORCE_ENABLED : Z;
  (* sys/stat.h *)
  S_ISUID : Z;
  S_ISGID : Z;
  (* sys/lockmgr.h *)
  LK_EXCLUSIVE : Z;
  (* sys/errno.h *)
  EPERM : Z;
  EFAULT : Z;
  (* sys/mount.h *)
  MNAMELEN : nat;
  (* sys/kernel.h: clock ticks per second *)
  hz : Z;
  (* the width of size_t, in bits *)
  size_t_bits : Z;
  (* sys/fnv_hash.h *)
  FNV1_32_INIT : Z;
  fnv_32_buf : list Z → Z → Z;
  (* the object representation (the bytes the hash reads) of an ino_t and
     of a uid_t *)
  ino_t_bytes : Z → list Z;
  uid_t_bytes : Z → list Z
}.

(** Conversion to [uint32_t] and to [size_t]. *)
Definition to_uint32 (x : Z) : Z := x mod 2 ^ 32.

Definition to_size_t `{kernel_headers} (x : Z) : Z := x mod 2 ^ size_t_bits.

(** The values an [int] can hold. *)
Definition int_range (x : Z) : Prop := - 2 ^ 31 ≤ x < 2 ^ 31.

(** The [int] an arithmetic result is stored as: the result of an [int]
    multiplication wraps around (two's complement, 32 bits). *)
Definition to_int (x : Z) : Z := (x + 2 ^ 31) mod 2 ^ 32 - 2 ^ 31.

(** ** libkern string functions (ISO C semantics)

    A character array is a [list Z]; reading past the end of the list reads
    the terminating NUL. *)

Fixpoint strncpy (src : list Z) (n : nat) : list Z :=
  match n with
  | O => []
  | S n' =>
      match src with
      | [] => replicate n 0
      | c :: src' => if c =? 0 then replicate n 0 else c :: strncpy src' n'
      end
  end.

Fixpoint strnlen (s : list Z) (maxlen : nat) : nat :=
  match maxlen, s with
  | S m, c :: s' => if c =? 0 then O else S (strnlen s' m)
  | _, _ => O
  end.

Fixpoint strncmp (s1 s2 : list Z) (n : nat) : Z :=
  match n with
  | O => 0
  | S m =>
      let c1 := hd 0 s1 in
      let c2 := hd 0 s2 in
      if c1 =? c2
      then if c1 =? 0 then 0 else strncmp (tl s1) (tl s2) m
      else c1 - c2
  end.

(** ** Data model *)

(** [struct pax_segvguard_entry]. [se_callout] is the number of ticks the
    entry's callout was last armed for ([callout_reset]); its handler is
    always [pax_segvguard_cleaner]. The list linkage [se_entry] is the
    position of the entry in its bucket. *)
Record pax_segvguard_entry := mk_entry {
  se_uid : Z;
  se_inode : Z;
  se_mntpoint : list Z;
  se_ncrashes : Z;
  se_callout : Z
}.

(** A pointer to an entry: (bucket, position). *)
Definition se_ptr : Type := nat * nat.

(** [pr->pr_hbsd.segvguard] *)
Record hbsd_segvguard := mk_cfg {
  status : Z;
  expiry : Z;
  suspension : Z;
  maxcrashes : Z
}.

(** [struct prison], as far as this file reads it. Prisons are named by
    numbers; [prison0] is number 0. *)
Record prison := mk_prison {
  pr_parent : option nat;
  pr_hbsd_segvguard : hbsd_segvguard
}.

Definition prison0 : nat := 0%nat.

(** [struct vnode] with the attributes [VOP_GETATTR] reports for it and
    the name of its mount point. *)
Record vnode := mk_vnode {
  va_fileid : Z;
  va_mode : Z;
  f_mntonname : list Z
}.

(** The outcomes of the VFS calls made on a vnode during one derivation of
    an identity. *)
Record vop_results := mk_vop {
  VOP_ISLOCKED : Z;
  vn_lock : Z;
  VOP_GETATTR : Z
}.

(** [struct thread], as far as this file reads it: the process's PaX flags
    ([pax_get_flags_td]), its pid, the real uid of its credential, its
    prison ([pax_get_prison_td]) and the vnode of its text. *)
Record thread := mk_thread {
  p_pax : Z;
  p_pid : Z;
  cr_ruid : Z;
  cr_prison : nat;
  p_textvp : option vnode
}.

(** [struct image_params] *)
Record image_params := mk_imgp {
  vp : vnode
}.

(** What the file prints. *)
Inductive log_event :=
| LogExpired (inode : Z) (mntpoint : list Z) (uid : Z)
| LogGetattrError (pid : Z) (func : string)
| LogSuspending (name : string) (pid : Z) (secs : Z) (ncrashes : Z)
| LogPreventing (name : string) (pid : Z)
| LogInvalidSettings (st : Z)
| LogBootStatus (st : Z)
| LogBootExpiry (secs : Z)
| LogBootSuspension (secs : Z)
| LogBootMaxcrashes (n : Z).

(** The file's globals, the prisons, and the console. *)
Record kstate := mk_kstate {
  pax_segvguard_status : Z;
  pax_segvguard_expiry : Z;
  pax_segvguard_suspension : Z;
  pax_segvguard_maxcrashes : Z;
  pax_segvguard_hashtbl : list (list pax_segvguard_entry);
  prisons : gmap nat prison;
  console : list log_event
}.

Definition PAX_SEGVGUARD_EXPIRY : Z := 2 * 60.
Definition PAX_SEGVGUARD_SUSPENSION : Z := 10 * 60.
Definition PAX_SEGVGUARD_MAXCRASHES : Z := 5.
Definition pax_segvguard_hashsize : Z := 512.

(** State updates. *)
Definition set_hashtbl (t : list (list pax_segvguard_entry)) (st : kstate) : kstate :=
  mk_kstate st.(pax_segvguard_status) st.(pax_segvguard_expiry)
    st.(pax_segvguard_suspension) st.(pax_segvguard_maxcrashes)
    t st.(prisons) st.(console).

Definition set_prisons (p : gmap nat prison) (st : kstate) : kstate :=
  mk_kstate st.(pax_segvguard_status) st.(pax_segvguard_expiry)
    st.(pax_segvguard_suspension) st.(pax_segvguard_maxcrashes)
    st.(pax_segvguard_hashtbl) p st.(console).

Definition printf (e : log_event) (st : kstate) : kstate :=
  mk_kstate st.(pax_segvguard_status) st.(pax_segvguard_expiry)
    st.(pax_segvguard_suspension) st.(pax_segvguard_maxcrashes)
    st.(pax_segvguard_hashtbl) st.(prisons) (st.(console) ++ [e]).

Definition set_status (v : Z) (st : kstate) : kstate :=
  mk_kstate v st.(pax_segvguard_expiry)
    st.(pax_segvguard_suspension) st.(pax_segvguard_maxcrashes)
    st.(pax_segvguard_hashtbl) st.(prisons) st.(console).

Definition set_expiry (v : Z) (st : kstate) : kstate :=
  mk_kstate st.(pax_segvguard_status) v
    st.(pax_segvguard_suspension) st.(pax_segvguard_maxcrashes)
    st.(pax_segvguard_hashtbl) st.(prisons) st.(console).

Definition set_suspension (v : Z) (st : kstate) : kstate :=
  mk_kstate st.(pax_segvguard_status) st.(pax_segvguard_expiry)
    v st.(pax_segvguard_maxcrashes)
    st.(pax_segvguard_hashtbl) st.(prisons) st.(console).

Definition set_maxcrashes (v : Z) (st : kstate) : kstate :=
  mk_kstate st.(pax_segvguard_status) st.(pax_segvguard_expiry)
    st.(pax_segvguard_suspension) v
    st.(pax_segvguard_hashtbl) st.(prisons) st.(console).

(** [pr->pr_hbsd.segvguard] for the prison numbered [pr]. *)
Definition zero_cfg : hbsd_segvguard := mk_cfg 0 0 0 0.

Definition pr_hbsd (st : kstate) (pr : nat) : hbsd_segvguard :=
  match st.(prisons) !! pr with
  | Some p => p.(pr_hbsd_segvguard)
  | None => zero_cfg
  end.

(** [pax_get_prison_td] *)
Definition pax_get_prison_td (td : thread) : nat := td.(cr_prison).

(** [pax_get_flags_td] *)
Definition pax_get_flags_td (td : thread) : Z := td.(p_pax).

(** ** The operations of hbsd_pax_segvguard.c *)

Section segvguard.
Context `{kernel_headers}.

(** [PAX_SEGVGUARD_HASH]: [_hash] is a [uint32_t]. *)
Definition PAX_SEGVGUARD_HASH (se : pax_segvguard_entry) : Z :=
  let _hash := to_uint32 (fnv_32_buf (ino_t_bytes se.(se_inode)) FNV1_32_INIT) in
  let _hash := to_uint32 (fnv_32_buf
                 (take (strnlen se.(se_mntpoint) MNAMELEN) se.(se_mntpoint)) _hash) in
  let _hash := to_uint32 (fnv_32_buf (uid_t_bytes se.(se_uid)) _hash) in
  _hash mod pax_segvguard_hashsize.

(** The index of [PAX_SEGVGUARD_BUCKET(se)] in the table. *)
Definition PAX_SEGVGUARD_BUCKET (se : pax_segvguard_entry) : nat :=
  Z.to_nat (PAX_SEGVGUARD_HASH se).

(** The list of a bucket, and the entry a pointer points to. *)
Definition bucket (st : kstate) (b : nat) : list pax_segvguard_entry :=
  default [] (st.(pax_segvguard_hashtbl) !! b).

Definition deref (st : kstate) (p : se_ptr) : option pax_segvguard_entry :=
  bucket st p.1 !! p.2.

(** An assignment through a pointer to an entry. *)
Definition store (p : se_ptr) (f : pax_segvguard_entry → pax_segvguard_entry)
    (st : kstate) : kstate :=
  set_hashtbl (alter (alter f p.2) p.1 st.(pax_segvguard_hashtbl)) st.

(** [callout_reset(&se->se_callout, to_ticks, pax_segvguard_cleaner, se)]:
    the pending countdown, if any, is replaced. *)
Definition callout_reset (p : se_ptr) (to_ticks : Z) (st : kstate) : kstate :=
  store p (λ se, mk_entry se.(se_uid) se.(se_inode) se.(se_mntpoint)
                   se.(se_ncrashes) to_ticks) st.

(** [pax_segvguard_init_prison]. Reading the parent of a prison that has
    none (or that does not exist) has no result. *)
Definition pax_segvguard_init_prison (pr : nat) (st : kstate) : option kstate :=
  match st.(prisons) !! pr with
  | None => None
  | Some p =>
      if decide (pr = prison0) then
        Some (set_prisons
                (<[pr := mk_prison p.(pr_parent)
                           (mk_cfg st.(pax_segvguard_status)
                                   st.(pax_segvguard_expiry)
                                   st.(pax_segvguard_suspension)
                                   st.(pax_segvguard_maxcrashes))]> st.(prisons)) st)
      else
        match p.(pr_parent) with
        | None => None
        | Some pr_p =>
            match st.(prisons) !! pr_p with
            | None => None
            | Some pp =>
                Some (set_prisons
                        (<[pr := mk_prison p.(pr_parent)
                                   (mk_cfg pp.(pr_hbsd_segvguard).(status)
                                           pp.(pr_hbsd_segvguard).(expiry)
                                           pp.(pr_hbsd_segvguard).(suspension)
                                           pp.(pr_hbsd_segvguard).(maxcrashes))]>
                           st.(prisons)) st)
            end
        end
  end.

(** The two flag updates the resolver ends every branch with. *)
Definition flags_guard_on (flags : Z) : Z :=
  let flags := Z.lor flags PAX_NOTE_SEGVGUARD in
  Z.land flags (Z.lnot PAX_NOTE_NOSEGVGUARD).

Definition flags_guard_off (flags : Z) : Z :=
  let flags := Z.land flags (Z.lnot PAX_NOTE_SEGVGUARD) in
  Z.lor flags PAX_NOTE_NOSEGVGUARD.

(** [pax_segvguard_setup_flags]. [ret] is what
    [VOP_GETATTR(imgp->vp, &vap, td->td_ucred)] returns; [status] is a
    [uint32_t], so both sides of each comparison are converted. *)
Definition pax_segvguard_setup_flags (st : kstate) (imgp : image_params)
    (td : thread) (mode : Z) (ret : Z) : Z :=
  let flags := 0 in
  let pr := pax_get_prison_td td in
  let status := to_uint32 (pr_hbsd st pr).(status) in
  if status =? to_uint32 PAX_FEATURE_DISABLED then flags_guard_off flags
  else if status =? to_uint32 PAX_FEATURE_FORCE_ENABLED then flags_guard_on flags
  else if status =? to_uint32 PAX_FEATURE_OPTIN then
    if negb (ret =? 0)
       || negb (Z.land imgp.(vp).(va_mode) (Z.lor S_ISUID S_ISGID) =? 0)
       || negb (Z.land mode PAX_NOTE_SEGVGUARD =? 0)
    then flags_guard_on flags
    else flags_guard_off flags
  else if status =? to_uint32 PAX_FEATURE_OPTOUT then
    if negb (Z.land mode PAX_NOTE_NOSEGVGUARD =? 0)
    then flags_guard_off flags
    else flags_guard_on flags
  else flags_guard_on flags.

(** [pax_segvguard_active_td] *)
Definition pax_segvguard_active_td (td : thread) : bool :=
  let flags := pax_get_flags_td td in
  if Z.land flags PAX_NOTE_SEGVGUARD =? PAX_NOTE_SEGVGUARD then true
  else if Z.land flags PAX_NOTE_NOSEGVGUARD =? PAX_NOTE_NOSEGVGUARD then false
  else true.

(** [pax_segvguard_cleaner]: the handler of an entry's callout. *)
Definition pax_segvguard_cleaner (args : se_ptr) (st : kstate) : kstate :=
  match deref st args with
  | None => st
  | Some se =>
      let st := printf (LogExpired se.(se_inode) se.(se_mntpoint) se.(se_uid)) st in
      set_hashtbl (alter (delete args.2) args.1 st.(pax_segvguard_hashtbl)) st
  end.

(** [pax_segvguard_add]. [malloc_ok] tells whether [malloc(M_NOWAIT)]
    returned memory. The new entry is zeroed, filled in, linked at the head
    of its bucket, and then its callout is armed for
    [pr->pr_hbsd.segvguard.expiry * hz] ticks, an [int] product. *)
Definition pax_segvguard_add (td : thread) (vn : vnode) (sbt : Z)
    (malloc_ok : bool) (io : vop_results) (st : kstate) : option se_ptr * kstate :=
  if negb malloc_ok then (None, st)
  else if negb (io.(VOP_ISLOCKED) =? LK_EXCLUSIVE) && negb (io.(vn_lock) =? 0)
  then (None, st)
  else
    let error := io.(VOP_GETATTR) in
    let mntpoint := strncpy vn.(f_mntonname) MNAMELEN in
    if negb (error =? 0)
    then (None, printf (LogGetattrError td.(p_pid) "pax_segvguard_add") st)
    else
      let pr := pax_get_prison_td td in
      let se := mk_entry td.(cr_ruid) vn.(va_fileid) mntpoint 1 0 in
      let b := PAX_SEGVGUARD_BUCKET se in
      let st := set_hashtbl (alter (cons se) b st.(pax_segvguard_hashtbl)) st in
      let st := callout_reset (b, O) (to_int ((pr_hbsd st pr).(expiry) * hz)) st in
      (Some (b, O), st).

(** The test of the loop of [pax_segvguard_lookup]. *)
Definition lookup_test (fileid : Z) (mntpoint : list Z) (ruid : Z)
    (se : pax_segvguard_entry) : bool :=
  (se.(se_inode) =? fileid)
  && (strncmp mntpoint se.(se_mntpoint) MNAMELEN =? 0)
  && (ruid =? se.(se_uid)).

(** [pax_segvguard_lookup] *)
Definition pax_segvguard_lookup (td : thread) (vn : vnode) (io : vop_results)
    (st : kstate) : option se_ptr * kstate :=
  if negb (io.(VOP_ISLOCKED) =? LK_EXCLUSIVE) && negb (io.(vn_lock) =? 0)
  then (None, st)
  else
    let error := io.(VOP_GETATTR) in
    let mntpoint := strncpy vn.(f_mntonname) MNAMELEN in
    if negb (error =? 0)
    then (None, printf (LogGetattrError td.(p_pid) "pax_segvguard_lookup") st)
    else
      let sekey := mk_entry td.(cr_ruid) vn.(va_fileid) mntpoint 0 0 in
      let b := PAX_SEGVGUARD_BUCKET sekey in
      match list_find (λ se, Is_true (lookup_test vn.(va_fileid) mntpoint td.(cr_ruid) se))
                      (bucket st b) with
      | Some (i, _) => (Some (b, i), st)
      | None => (None, st)
      end.

(** What one call of [pax_segvguard_segfault] gets from its environment. *)
Record crash_env := mk_crash_env {
  sbinuptime : Z;
  lookup_io : vop_results;
  add_malloc : bool;
  add_io : vop_results
}.

(** [se->se_ncrashes++] on a [size_t]. *)
Definition incr_ncrashes (se : pax_segvguard_entry) : pax_segvguard_entry :=
  mk_entry se.(se_uid) se.(se_inode) se.(se_mntpoint)
    (to_size_t (se.(se_ncrashes) + 1)) se.(se_callout).

(** [se->se_ncrashes >= pax_segvguard_maxcrashes]: a [size_t] against an
    [int], compared as [size_t]. *)
Definition ncrashes_ge_max (se : pax_segvguard_entry) (st : kstate) : bool :=
  to_size_t st.(pax_segvguard_maxcrashes) <=? se.(se_ncrashes).

(** [pax_segvguard_segfault]. The countdown is armed again for
    [pr->pr_hbsd.segvguard.suspension * hz] ticks, an [int] product. *)
Definition pax_segvguard_segfault (td : thread) (name : string) (env : crash_env)
    (st : kstate) : Z * kstate :=
  if negb (pax_segvguard_active_td td) then (0, st)
  else
    match td.(p_textvp) with
    | None => (EFAULT, st)
    | Some v =>
        let pr := pax_get_prison_td td in
        let sbt := env.(sbinuptime) in
        let '(se, st) := pax_segvguard_lookup td v env.(lookup_io) st in
        match se with
        | None =>
            let '(_, st) := pax_segvguard_add td v sbt env.(add_malloc) env.(add_io) st in
            (0, st)
        | Some p =>
            let st := store p incr_ncrashes st in
            match deref st p with
            | None => (0, st)
            | Some e =>
                if ncrashes_ge_max e st then
                  let st := printf (LogSuspending name td.(p_pid)
                                      st.(pax_segvguard_suspension) e.(se_ncrashes)) st in
                  let st := callout_reset p
                              (to_int ((pr_hbsd st pr).(suspension) * hz)) st in
                  (0, st)
                else (0, st)
            end
        end
    end.

(** [pax_segvguard_check] *)
Definition pax_segvguard_check (td : thread) (v : option vnode) (name : string)
    (io : vop_results) (st : kstate) : Z * kstate :=
  if negb (pax_segvguard_active_td td) then (0, st)
  else
    match v with
    | None => (EFAULT, st)
    | Some v =>
        let '(se, st) := pax_segvguard_lookup td v io st in
        match se with
        | Some p =>
            match deref st p with
            | Some e =>
                if ncrashes_ge_max e st
                then (EPERM, printf (LogPreventing name td.(p_pid)) st)
                else (0, st)
            | None => (0, st)
            end
        | None => (0, st)
        end
    end.

(** The case labels of the two [switch] statements. *)
Definition recognized (flags : Z) : bool :=
  (flags =? PAX_FEATURE_DISABLED) || (flags =? PAX_FEATURE_OPTIN)
  || (flags =? PAX_FEATURE_OPTOUT) || (flags =? PAX_FEATURE_FORCE_ENABLED).

(** [pax_segvguard_sysinit] *)
Definition pax_segvguard_sysinit (bootverbose : bool) (st : kstate) : kstate :=
  let st :=
    if recognized st.(pax_segvguard_status) then st
    else
      let st := printf (LogInvalidSettings st.(pax_segvguard_status)) st in
      set_status PAX_FEATURE_FORCE_ENABLED st in
  let st :=
    if bootverbose then
      let st := printf (LogBootStatus st.(pax_segvguard_status)) st in
      let st := printf (LogBootExpiry st.(pax_segvguard_expiry)) st in
      let st := printf (LogBootSuspension st.(pax_segvguard_suspension)) st in
      printf (LogBootMaxcrashes st.(pax_segvguard_maxcrashes)) st
    else st in
  set_hashtbl (replicate (Z.to_nat pax_segvguard_hashsize) []) st.

(** [pax_segvguard_validate_flags] *)
Definition pax_segvguard_validate_flags (flags : Z) : Z :=
  if recognized flags then flags else PAX_FEATURE_FORCE_ENABLED.

End segvguard.

(** ** The sysctl handlers (PAX_SYSCTLS) *)

(** [struct sysctl_req], as far as the handlers read it.
    [sysctl_handle_int] is the outcome of
    [sysctl_handle_int(oidp, &val, sizeof(int), req)] on this request: given
    the value stored in [val], the error it returns and the value it leaves
    in [val]. *)
Record sysctl_req := mk_req {
  req_td : thread;
  newptr : option Z;
  sysctl_handle_int : Z → Z * Z
}.

Definition set_cfg (f : hbsd_segvguard → hbsd_segvguard) (pr : nat)
    (st : kstate) : kstate :=
  set_prisons (alter (λ p, mk_prison p.(pr_parent) (f p.(pr_hbsd_segvguard)))
                     pr st.(prisons)) st.

(** [sysctl_pax_segvguard_expiry] *)
Definition sysctl_pax_segvguard_expiry (req : sysctl_req) (st : kstate) : Z * kstate :=
  let pr := pax_get_prison_td req.(req_td) in
  let val := (pr_hbsd st pr).(expiry) in
  let '(err, val) := req.(sysctl_handle_int) val in
  if negb (err =? 0) || bool_decide (req.(newptr) = None) then (err, st)
  else
    let st := if decide (pr = prison0) then set_expiry val st else st in
    (0, set_cfg (λ c, mk_cfg c.(status) val c.(suspension) c.(maxcrashes)) pr st).

(** [sysctl_pax_segvguard_suspension] *)
Definition sysctl_pax_segvguard_suspension (req : sysctl_req) (st : kstate) : Z * kstate :=
  let pr := pax_get_prison_td req.(req_td) in
  let val := (pr_hbsd st pr).(suspension) in
  let '(err, val) := req.(sysctl_handle_int) val in
  if negb (err =? 0) || bool_decide (req.(newptr) = None) then (err, st)
  else
    let st := if decide (pr = prison0) then set_suspension val st else st in
    (0, set_cfg (λ c, mk_cfg c.(status) c.(expiry) val c.(maxcrashes)) pr st).

(** [sysctl_pax_segvguard_maxcrashes] *)
Definition sysctl_pax_segvguard_maxcrashes (req : sysctl_req) (st : kstate) : Z * kstate :=
  let pr := pax_get_prison_td req.(req_td) in
  let val := (pr_hbsd st pr).(maxcrashes) in
  let '(err, val) := req.(sysctl_handle_int) val in
  if negb (err =? 0) || bool_decide (req.(newptr) = None) then (err, st)
  else
    let st := if decide (pr = prison0) then set_maxcrashes val st else st in
    (0, set_cfg (λ c, mk_cfg c.(status) c.(expiry) c.(suspension) val) pr st).

(** ** One concrete set of headers (an LP64 kernel, 1000 ticks a second) *)

(** FNV-1, 32 bits. *)
Fixpoint fnv1_32 (buf : list Z) (hval : Z) : Z :=
  match buf with
  | [] => hval
  | c :: buf' => fnv1_32 buf' (Z.lxor ((hval * 16777619) mod 2 ^ 32) c)
  end.

(** The [n] bytes of [x], least significant first. *)
Definition le_bytes (n : nat) (x : Z) : list Z :=
  map (λ i, (x / 2 ^ (8 * Z.of_nat i)) mod 256) (seq 0 n).

Definition hbsd_amd64 : kernel_headers := {|
  PAX_NOTE_SEGVGUARD := 16;
  PAX_NOTE_NOSEGVGUARD := 32;
  PAX_FEATURE_DISABLED := 0;
  PAX_FEATURE_OPTIN := 1;
  PAX_FEATURE_OPTOUT := 2;
  PAX_FEATURE_FORCE_ENABLED := 3;
  S_ISUID := 2048;
  S_ISGID := 1024;
  LK_EXCLUSIVE := 524288;
  EPERM := 1;
  EFAULT := 14;
  MNAMELEN := 1024;
  hz := 1000;
  size_t_bits := 64;
  FNV1_32_INIT := 33554467;
  fnv_32_buf := fnv1_32;
  ino_t_bytes := le_bytes 8;
  uid_t_bytes := le_bytes 4
|}.



(** ** The vocabulary of the specification *)

Section vocabulary.
Context `{kernel_headers}.

(** The two values of the Execution Policy Flags. *)
Definition guard_active : Z := PAX_NOTE_SEGVGUARD.
Definition guard_inactive : Z := PAX_NOTE_NOSEGVGUARD.


(** The four recognized modes. *)
Definition modes : list Z :=
  [PAX_FEATURE_DISABLED; PAX_FEATURE_OPTIN; PAX_FEATURE_OPTOUT;
   PAX_FEATURE_FORCE_ENABLED].

(** What the headers are expected to provide: four different modes, each an
    [int], and two flag bits that exclude each other. *)
Definition modes_distinct : Prop := Forall int_range modes ∧ NoDup modes.

Definition bits_exclusive : Prop :=
  Z.land PAX_NOTE_SEGVGUARD PAX_NOTE_NOSEGVGUARD = 0.

(** The binary is set-user-id or set-group-id. *)
Definition privilege_elevated (vn : vnode) : bool :=
  negb (Z.land vn.(va_mode) (Z.lor S_ISUID S_ISGID) =? 0).

(** The override word of the binary requests a bit. *)
Definition requests (mode bit : Z) : bool := negb (Z.land mode bit =? 0).

(** The mode of the scope a thread runs in. *)
Definition scope_mode (st : kstate) (td : thread) : Z :=
  (pr_hbsd st (pax_get_prison_td td)).(status).

(** The identity derivation of one call fails: the vnode could not be
    locked, or its attributes could not be read. *)
Definition derivation_fails (io : vop_results) : bool :=
  (negb (io.(VOP_ISLOCKED) =? LK_EXCLUSIVE) && negb (io.(vn_lock) =? 0))
  || negb (io.(VOP_GETATTR) =? 0).

(** The identity of a record: user id, file serial number, and the label
    of the file system (the string held in [se_mntpoint]). *)
Definition identity (se : pax_segvguard_entry) : Z * Z * list Z :=
  (se.(se_uid), se.(se_inode),
   take (strnlen se.(se_mntpoint) MNAMELEN) se.(se_mntpoint)).

(** The identity a thread and a vnode derive to. *)
Definition identity_of (td : thread) (vn : vnode) : Z * Z * list Z :=
  identity (mk_entry td.(cr_ruid) vn.(va_fileid)
              (strncpy vn.(f_mntonname) MNAMELEN) 0 0).

(** All records of the table. *)
Definition records (st : kstate) : list pax_segvguard_entry :=
  concat st.(pax_segvguard_hashtbl).

(** The records of an identity. *)
Definition records_of (st : kstate) (id : Z * Z * list Z) : list pax_segvguard_entry :=
  filter (λ se, identity se = id) (records st).

(** The table is well formed: every record sits in the bucket its key
    hashes to, and no two records have the same identity. *)
Definition table_inv (st : kstate) : Prop :=
  (∀ b se, se ∈ bucket st b → PAX_SEGVGUARD_BUCKET se = b)
  ∧ NoDup (identity <$> records st).

(** The VFS answers of one crash are stable: when the lookup could not
    derive the identity, the insertion that follows cannot either. *)
Definition derivation_stable (env : crash_env) : Prop :=
  derivation_fails env.(lookup_io) = true → derivation_fails env.(add_io) = true.

(** The states the subsystem goes through after its initialisation, as
    long as the VFS answers are stable: crashes, checks, and callouts
    that fire. *)
Inductive reachable : kstate → Prop :=
| reach_sysinit bootverbose st :
    reachable (pax_segvguard_sysinit bootverbose st)
| reach_segfault td name env st :
    reachable st → derivation_stable env →
    reachable (pax_segvguard_segfault td name env st).2
| reach_check td v name io st :
    reachable st → reachable (pax_segvguard_check td v name io st).2
| reach_cleaner p st :
    reachable st → reachable (pax_segvguard_cleaner p st).

(** Two states that differ in the console at most. *)
Definition same_but_console (st st' : kstate) : Prop :=
  pax_segvguard_hashtbl st' = pax_segvguard_hashtbl st
  ∧ prisons st' = prisons st
  ∧ pax_segvguard_status st' = pax_segvguard_status st
  ∧ pax_segvguard_expiry st' = pax_segvguard_expiry st
  ∧ pax_segvguard_suspension st' = pax_segvguard_suspension st
  ∧ pax_segvguard_maxcrashes st' = pax_segvguard_maxcrashes st.

(** A thread with other PaX flags. *)
Definition with_pax (flags : Z) (td : thread) : thread :=
  mk_thread flags td.(p_pid) td.(cr_ruid) td.(cr_prison) td.(p_textvp).

End vocabulary.

(** ** A concrete run: boot, one jail, a binary that crashes *)

Module Run.

#[local] Existing Instance hbsd_amd64.

(** The globals as the file initialises them (without PAX_HARDENING), the
    root prison and one jail below it, before any initialisation ran. *)
Definition boot : kstate :=
  mk_kstate PAX_FEATURE_OPTIN PAX_SEGVGUARD_EXPIRY PAX_SEGVGUARD_SUSPENSION
    PAX_SEGVGUARD_MAXCRASHES []
    (<[1%nat := mk_prison (Some prison0) zero_cfg]>
       (<[prison0 := mk_prison None zero_cfg]> ∅))
    [].

(** [pax_segvguard_sysinit], then [pax_segvguard_init_prison] of the root
    prison and of the jail. *)
Definition init : option kstate :=
  pax_segvguard_init_prison prison0 (pax_segvguard_sysinit false boot)
    ≫= pax_segvguard_init_prison 1%nat.

Definition booted : kstate := default boot init.

(** "/bin/victim", mode 0755, on the file system mounted on "/". *)
Definition victim : vnode := mk_vnode 4242 493 [47].

(** A thread of uid 1001 that runs it with the guard active, in the prison
    numbered [pr]. *)
Definition td_in (pr : nat) : thread :=
  mk_thread PAX_NOTE_SEGVGUARD 77 1001 pr (Some victim).

(** VFS calls that all succeed on an unlocked vnode, and VFS calls whose
    [VOP_GETATTR] fails with EIO. *)
Definition io_ok : vop_results := mk_vop 0 0 0.
Definition io_eio : vop_results := mk_vop 0 0 5.

(** A crash during which every call succeeds, and a crash during which
    the [VOP_GETATTR] of the lookup fails and the one of the insertion
    succeeds. *)
Definition env_ok : crash_env := mk_crash_env 0 io_ok true io_ok.
Definition env_transient : crash_env := mk_crash_env 0 io_eio true io_ok.

Definition crash (td : thread) (env : crash_env) (st : kstate) : kstate :=
  (pax_segvguard_segfault td "victim" env st).2.

(** root sets [max_crashes] to 2 from inside the jail. *)
Definition req_max2 : sysctl_req :=
  mk_req (td_in 1) (Some 2) (λ _, (0, 2)).

(** The system after that sysctl, and after one and two crashes of the
    victim in the jail. *)
Definition jail_max2 : kstate :=
  (sysctl_pax_segvguard_maxcrashes req_max2 booted).2.

Definition jail_crashed1 : kstate := crash (td_in 1) env_ok jail_max2.
Definition jail_crashed2 : kstate := crash (td_in 1) env_ok jail_crashed1.

(** The host after one crash of the victim, and after a second crash
    during which the lookup could not read the attributes. *)
Definition host_crashed1 : kstate := crash (td_in prison0) env_ok booted.
Definition host_crashed2 : kstate :=
  crash (td_in prison0) env_transient host_crashed1.

(** A boot-time status that is no mode. *)
Definition boot_bad_status : kstate := set_status 7 boot.


(** A crash during which [malloc] fails. *)
Definition env_nomem : crash_env := mk_crash_env 0 io_ok false io_ok.

End Run.

(** ** Vocabulary for the rest of the file's behaviour *)

Section behaviour_vocabulary.
Context `{kernel_headers}.

(** The settings of the root prison mirror the globals (the status apart,
    which [pax_segvguard_sysinit] may coerce after the root prison was
    initialised). *)
Definition root_synced (st : kstate) : Prop :=
  (pr_hbsd st prison0).(expiry) = st.(pax_segvguard_expiry)
  ∧ (pr_hbsd st prison0).(suspension) = st.(pax_segvguard_suspension)
  ∧ (pr_hbsd st prison0).(maxcrashes) = st.(pax_segvguard_maxcrashes).

(** Two states with the same configuration and a table of the same size:
    they differ in the records and the console at most. *)
Definition same_config (st st' : kstate) : Prop :=
  prisons st' = prisons st
  ∧ pax_segvguard_status st' = pax_segvguard_status st
  ∧ pax_segvguard_expiry st' = pax_segvguard_expiry st
  ∧ pax_segvguard_suspension st' = pax_segvguard_suspension st
  ∧ pax_segvguard_maxcrashes st' = pax_segvguard_maxcrashes st
  ∧ length (pax_segvguard_hashtbl st') = length (pax_segvguard_hashtbl st).

(** A step stays in the scope of the prison [pr]: it leaves every other
    prison, the status of [pr], the table and the console alone, and it
    leaves the globals alone unless [pr] is the root prison. *)
Definition in_scope (pr : nat) (st st' : kstate) : Prop :=
  (∀ q, q ≠ pr → prisons st' !! q = prisons st !! q)
  ∧ (pr_hbsd st' pr).(status) = (pr_hbsd st pr).(status)
  ∧ pax_segvguard_hashtbl st' = pax_segvguard_hashtbl st
  ∧ console st' = console st
  ∧ pax_segvguard_status st' = pax_segvguard_status st
  ∧ (pr ≠ prison0 →
     pax_segvguard_expiry st' = pax_segvguard_expiry st
     ∧ pax_segvguard_suspension st' = pax_segvguard_suspension st
     ∧ pax_segvguard_maxcrashes st' = pax_segvguard_maxcrashes st).

(** A sysctl handler stays in the scope of the requesting thread. *)
Definition stays_in_scope (handler : sysctl_req → kstate → Z * kstate) : Prop :=
  ∀ req st, in_scope (pax_get_prison_td req.(req_td)) st (handler req st).2.

(** Every call of one crash succeeds: the identity derives in the lookup
    and in the insertion, and memory is there. *)
Definition crash_succeeds (env : crash_env) : Prop :=
  derivation_fails env.(lookup_io) = false
  ∧ derivation_fails env.(add_io) = false
  ∧ env.(add_malloc) = true.

(** [n] crashes of the same thread in a row. *)
Fixpoint crashes (n : nat) (td : thread) (name : string) (env : crash_env)
    (st : kstate) : kstate :=
  match n with
  | O => st
  | S n' => crashes n' td name env (pax_segvguard_segfault td name env st).2
  end.

(** The thread as [pax_segvguard_setup_flags] sets it up at exec time. *)
Definition exec_setup (st : kstate) (imgp : image_params) (td : thread)
    (mode ret : Z) : thread :=
  with_pax (pax_segvguard_setup_flags st imgp td mode ret) td.

(** *** The bucket mutexes

    [PAX_SEGVGUARD_LOCK(se)] and [PAX_SEGVGUARD_UNLOCK(se)] act on the mutex
    of the bucket [se] hashes to. The functions below list, in order, the
    mutex operations each function of the file performs on a call. *)
Inductive mtx_event :=
| mtx_lock (b : nat)
| mtx_unlock (b : nat).

(** [pax_segvguard_lookup]: the bucket of the key is locked before the
    loop; a match returns with the mutex held, the end of the list unlocks
    it. Nothing is locked when the identity does not derive. *)
Definition pax_segvguard_lookup_mtx (td : thread) (vn : vnode) (io : vop_results)
    (st : kstate) : list mtx_event :=
  if derivation_fails io then []
  else
    let sekey := mk_entry td.(cr_ruid) vn.(va_fileid)
                   (strncpy vn.(f_mntonname) MNAMELEN) 0 0 in
    mtx_lock (PAX_SEGVGUARD_BUCKET sekey)
    :: match (pax_segvguard_lookup td vn io st).1 with
       | Some _ => []
       | None => [mtx_unlock (PAX_SEGVGUARD_BUCKET sekey)]
       end.

(** [pax_segvguard_add]: the bucket of the new entry is locked around
    [LIST_INSERT_HEAD]. *)
Definition pax_segvguard_add_mtx (td : thread) (vn : vnode) (sbt : Z)
    (malloc_ok : bool) (io : vop_results) (st : kstate) : list mtx_event :=
  match (pax_segvguard_add td vn sbt malloc_ok io st).1 with
  | Some p => [mtx_lock p.1; mtx_unlock p.1]
  | None => []
  end.

(** [pax_segvguard_segfault]: [PAX_SEGVGUARD_UNLOCK(se)] after the count of
    the record found was incremented. *)
Definition pax_segvguard_segfault_mtx (td : thread) (name : string)
    (env : crash_env) (st : kstate) : list mtx_event :=
  if negb (pax_segvguard_active_td td) then []
  else
    match td.(p_textvp) with
    | None => []
    | Some v =>
        let '(se, st') := pax_segvguard_lookup td v env.(lookup_io) st in
        pax_segvguard_lookup_mtx td v env.(lookup_io) st
        ++ match se with
           | None =>
               pax_segvguard_add_mtx td v env.(sbinuptime) env.(add_malloc)
                 env.(add_io) st'
           | Some p =>
               match deref (store p incr_ncrashes st') p with
               | Some e => [mtx_unlock (PAX_SEGVGUARD_BUCKET e)]
               | None => []
               end
           end
    end.

(** [pax_segvguard_check]: [PAX_SEGVGUARD_UNLOCK(se)] on both ways out of
    the branch of a record found. *)
Definition pax_segvguard_check_mtx (td : thread) (v : option vnode)
    (name : string) (io : vop_results) (st : kstate) : list mtx_event :=
  if negb (pax_segvguard_active_td td) then []
  else
    match v with
    | None => []
    | Some v =>
        let '(se, st') := pax_segvguard_lookup td v io st in
        pax_segvguard_lookup_mtx td v io st
        ++ match se with
           | Some p =>
               match deref st' p with
               | Some e => [mtx_unlock (PAX_SEGVGUARD_BUCKET e)]
               | None => []
               end
           | None => []
           end
    end.

(** A thread runs a list of mutex operations: locking a mutex it holds, or
    unlocking one it does not hold, has no result; otherwise the result is
    the set of mutexes it holds in the end. *)
Fixpoint mtx_run (held : gset nat) (tr : list mtx_event) : option (gset nat) :=
  match tr with
  | [] => Some held
  | mtx_lock b :: tr' =>
      if decide (b ∈ held) then None else mtx_run ({[b]} ∪ held) tr'
  | mtx_unlock b :: tr' =>
      if decide (b ∈ held) then mtx_run (held ∖ {[b]}) tr' else None
  end.

End behaviour_vocabulary.

(** ** More of the concrete run *)

Module Scenario.
Import Run.

#[local] Existing Instance hbsd_amd64.

(** The record the first crash of the victim creates on the host, and the
    pointer to it. *)
Definition victim_record : pax_segvguard_entry :=
  mk_entry 1001 4242 (strncpy [47] MNAMELEN) 1 (PAX_SEGVGUARD_EXPIRY * hz).

Definition victim_ptr : se_ptr := (PAX_SEGVGUARD_BUCKET victim_record, O).

(** Another user who runs the same binary. *)
Definition td_other : thread :=
  mk_thread PAX_NOTE_SEGVGUARD 78 1002 prison0 (Some victim).


(** The host after five crashes of the victim. *)
Definition host_crashed5 : kstate :=
  crashes 5 (td_in prison0) "victim" env_ok booted.

(** root of the host sets [max_crashes] to -1 after the first crash. *)
Definition req_negative : sysctl_req :=
  mk_req (td_in prison0) (Some (-1)) (λ _, (0, -1)).

Definition host_negative : kstate :=
  (sysctl_pax_segvguard_maxcrashes req_negative host_crashed1).2.

(** root of the host sets [expiry_timeout] to 3000000 seconds: at 1000
    ticks a second the number of ticks is beyond the largest [int]. *)
Definition req_long_expiry : sysctl_req :=
  mk_req (td_in prison0) (Some 3000000) (λ _, (0, 3000000)).

Definition host_long_expiry : kstate :=
  (sysctl_pax_segvguard_expiry req_long_expiry booted).2.

(** After the first crash of the victim, root of the host sets
    [max_crashes] to 2 and [suspend_timeout] to 2147484 seconds. *)
Definition req_host_max2 : sysctl_req :=
  mk_req (td_in prison0) (Some 2) (λ _, (0, 2)).

Definition req_long_suspension : sysctl_req :=
  mk_req (td_in prison0) (Some 2147484) (λ _, (0, 2147484)).

Definition host_long_suspension : kstate :=
  (sysctl_pax_segvguard_suspension req_long_suspension
     (sysctl_pax_segvguard_maxcrashes req_host_max2 host_crashed1).2).2.

(** The host with the mode of the root prison set to forced. *)
Definition host_forced : kstate :=
  set_cfg (λ c, mk_cfg PAX_FEATURE_FORCE_ENABLED c.(expiry) c.(suspension)
                  c.(maxcrashes)) prison0 booted.

End Scenario.

(** * Properties *)

Section properties.
Context `{kernel_headers}.

(** ** Arithmetic and strings *)

(** An [int] product that fits is the product; in every case the result is
    an [int]. *)
Lemma to_int_fits (x : Z) : int_range x → to_int x = x.
Proof.
  unfold int_range, to_int.
  change (2 ^ 31) with 2147483648. change (2 ^ 32) with 4294967296.
  intros Hx. rewrite Z.mod_small; lia.
Qed.

Lemma to_int_range (x : Z) : int_range (to_int x).
Proof.
  unfold int_range, to_int.
  change (2 ^ 31) with 2147483648. change (2 ^ 32) with 4294967296.
  pose proof (Z.mod_pos_bound (x + 2147483648) 4294967296). lia.
Qed.

Lemma to_uint32_inj (a b : Z) :
  int_range a → int_range b → to_uint32 a = to_uint32 b → a = b.
Proof.
  unfold int_range, to_uint32.
  change (2 ^ 31) with 2147483648. change (2 ^ 32) with 4294967296.
  intros Ha Hb Heq.
  rewrite (Z.mod_eq a), (Z.mod_eq b) in Heq by lia.
  lia.
Qed.

Lemma to_uint32_eqb (a b : Z) :
  int_range a → int_range b → (to_uint32 a =? to_uint32 b) = bool_decide (a = b).
Proof.
  intros Ha Hb. case_bool_decide as Hab.
  - subst. apply Z.eqb_refl.
  - apply Z.eqb_neq. intros Heq. apply Hab. by apply to_uint32_inj.
Qed.

Lemma flags_guard_off_0 : flags_guard_off 0 = guard_inactive.
Proof. unfold flags_guard_off. by rewrite Z.land_0_l, Z.lor_0_l. Qed.

Lemma flags_guard_on_0 : bits_exclusive → flags_guard_on 0 = guard_active.
Proof.
  unfold bits_exclusive, flags_guard_on, guard_active. intros Hex.
  rewrite Z.lor_0_l. apply Z.bits_inj'. intros n Hn.
  rewrite Z.land_spec, Z.lnot_spec by done.
  apply (f_equal (λ z, Z.testbit z n)) in Hex.
  rewrite Z.land_spec, Z.bits_0 in Hex.
  destruct (Z.testbit PAX_NOTE_SEGVGUARD n), (Z.testbit PAX_NOTE_NOSEGVGUARD n);
    done.
Qed.

(** [strncmp] answers 0 exactly when the two arrays hold the same string. *)
Lemma strncmp_0_iff (n : nat) (a b : list Z) :
  strncmp a b n = 0 ↔ take (strnlen a n) a = take (strnlen b n) b.
Proof.
  revert a b. induction n as [| n IH]; intros a b; [by destruct a, b |].
  destruct a as [| c1 a], b as [| c2 b]; cbn [strncmp strnlen hd tl]; [done | | |].
  - destruct (Z.eqb_spec 0 c2) as [<- | Hne]; [done |].
    destruct (Z.eqb_spec c2 0) as [-> | _]; [done |].
    simpl. split; [lia | done].
  - destruct (Z.eqb_spec c1 0) as [-> | Hne]; [done |].
    simpl. split; [lia | done].
  - destruct (Z.eqb_spec c1 c2) as [<- | Hne].
    + destruct (Z.eqb_spec c1 0) as [-> | Hc]; [done |].
      simpl. rewrite IH. split; [by intros -> | by intros [= ->]].
    + destruct (Z.eqb_spec c1 0) as [-> | Hc1], (Z.eqb_spec c2 0) as [-> | Hc2];
        simpl; (split; [lia | intros ?; simplify_eq]).
Qed.

(** The test of the lookup loop compares identities. *)
Lemma lookup_test_identity (fileid : Z) (mntpoint : list Z) (ruid : Z)
    (se : pax_segvguard_entry) :
  lookup_test fileid mntpoint ruid se = true
  ↔ identity se = (ruid, fileid, take (strnlen mntpoint MNAMELEN) mntpoint).
Proof.
  unfold lookup_test, identity.
  rewrite !andb_true_iff, !Z.eqb_eq, strncmp_0_iff.
  split; [intros [[-> ->] ->]; done | intros [= -> -> ->]; done].
Qed.

(** The bucket of a record is a function of its identity. *)
Lemma bucket_identity (se1 se2 : pax_segvguard_entry) :
  identity se1 = identity se2 →
  PAX_SEGVGUARD_BUCKET se1 = PAX_SEGVGUARD_BUCKET se2.
Proof.
  unfold identity, PAX_SEGVGUARD_BUCKET, PAX_SEGVGUARD_HASH.
  by intros [= -> -> ->].
Qed.

(** ** The policy resolver *)

Lemma modes_distinct_elim :
  modes_distinct →
  (int_range PAX_FEATURE_DISABLED ∧ int_range PAX_FEATURE_OPTIN
   ∧ int_range PAX_FEATURE_OPTOUT ∧ int_range PAX_FEATURE_FORCE_ENABLED)
  ∧ (PAX_FEATURE_DISABLED ≠ PAX_FEATURE_OPTIN
     ∧ PAX_FEATURE_DISABLED ≠ PAX_FEATURE_OPTOUT
     ∧ PAX_FEATURE_DISABLED ≠ PAX_FEATURE_FORCE_ENABLED
     ∧ PAX_FEATURE_OPTIN ≠ PAX_FEATURE_OPTOUT
     ∧ PAX_FEATURE_OPTIN ≠ PAX_FEATURE_FORCE_ENABLED
     ∧ PAX_FEATURE_OPTOUT ≠ PAX_FEATURE_FORCE_ENABLED).
Proof.
  unfold modes_distinct, modes. intros [Hr Hd]. split.
  - repeat (apply Forall_cons in Hr as [? Hr]). done.
  - repeat (apply NoDup_cons in Hd as [? Hd]). set_solver.
Qed.

(** With modes that are [int]s, the [uint32_t] comparisons of the resolver
    decide equality with the scope's mode. *)
Lemma setup_flags_unfold (st : kstate) (imgp : image_params) (td : thread)
    (mode ret : Z) :
  modes_distinct → int_range (scope_mode st td) →
  pax_segvguard_setup_flags st imgp td mode ret =
    if bool_decide (scope_mode st td = PAX_FEATURE_DISABLED) then flags_guard_off 0
    else if bool_decide (scope_mode st td = PAX_FEATURE_FORCE_ENABLED)
    then flags_guard_on 0
    else if bool_decide (scope_mode st td = PAX_FEATURE_OPTIN) then
      if negb (ret =? 0) || privilege_elevated imgp.(vp)
         || requests mode PAX_NOTE_SEGVGUARD
      then flags_guard_on 0 else flags_guard_off 0
    else if bool_decide (scope_mode st td = PAX_FEATURE_OPTOUT) then
      if requests mode PAX_NOTE_NOSEGVGUARD
      then flags_guard_off 0 else flags_guard_on 0
    else flags_guard_on 0.
Proof.
  intros Hm Hs. apply modes_distinct_elim in Hm as [(? & ? & ? & ?) _].
  unfold pax_segvguard_setup_flags, scope_mode in *.
  by rewrite !to_uint32_eqb.
Qed.

(** C2, as the code has it. For every scope mode, outcome of the
    retrieval of the binary's attributes, privilege-elevation bit and
    override word, the policy resolver returns the flag of the decision
    table: disabled gives guard-inactive; forced gives guard-active; opt-in
    gives guard-active exactly when the attributes of the binary could not
    be retrieved, or the binary is privilege-elevated, or its override
    requests guard-active, and guard-inactive otherwise; opt-out gives
    guard-active unless the override requests guard-inactive; a mode that
    is none of the four gives guard-active. *)
Theorem setup_flags_decision_table (st : kstate) (imgp : image_params)
    (td : thread) (mode ret : Z) :
  modes_distinct → bits_exclusive → int_range (scope_mode st td) →
  let flags := pax_segvguard_setup_flags st imgp td mode ret in
  (scope_mode st td = PAX_FEATURE_DISABLED → flags = guard_inactive)
  ∧ (scope_mode st td = PAX_FEATURE_FORCE_ENABLED → flags = guard_active)
  ∧ (scope_mode st td = PAX_FEATURE_OPTIN →
       flags = if negb (ret =? 0) || privilege_elevated imgp.(vp)
                  || requests mode PAX_NOTE_SEGVGUARD
               then guard_active else guard_inactive)
  ∧ (scope_mode st td = PAX_FEATURE_OPTOUT →
       flags = if requests mode PAX_NOTE_NOSEGVGUARD
               then guard_inactive else guard_active)
  ∧ (scope_mode st td ∉ modes → flags = guard_active).
Proof.
  intros Hm Hb Hs flags. subst flags.
  rewrite setup_flags_unfold by done.
  apply modes_distinct_elim in Hm as [_ (? & ? & ? & ? & ? & ?)].
  rewrite flags_guard_off_0, (flags_guard_on_0 Hb).
  repeat split.
  - intros ->. by rewrite bool_decide_eq_true_2.
  - intros ->. rewrite bool_decide_eq_false_2 by done.
    by rewrite bool_decide_eq_true_2.
  - intros ->. rewrite !bool_decide_eq_false_2 by done.
    by rewrite bool_decide_eq_true_2.
  - intros ->. rewrite !bool_decide_eq_false_2 by done.
    by rewrite bool_decide_eq_true_2.
  - unfold modes. intros Hn.
    rewrite !bool_decide_eq_false_2; [done | set_solver..].
Qed.

(** C4, as the code has it. In opt-in mode a failure to retrieve the
    attributes of the binary is treated as the binary being
    privilege-elevated: the resolver returns guard-active whatever the
    override word says. The failure is not reported to the caller: the
    resolver returns a flag word like in every other case. *)
Theorem optin_getattr_failure_enforces (st : kstate) (imgp : image_params)
    (td : thread) (mode ret : Z) :
  modes_distinct → bits_exclusive →
  scope_mode st td = PAX_FEATURE_OPTIN → ret ≠ 0 →
  pax_segvguard_setup_flags st imgp td mode ret = guard_active.
Proof.
  intros Hm Hb Hs Hret.
  pose proof Hm as [(_ & Hr & _ & _) (? & ? & ? & ? & ? & ?)]%modes_distinct_elim.
  rewrite setup_flags_unfold by (by rewrite ?Hs).
  rewrite Hs, !bool_decide_eq_false_2 by done.
  rewrite bool_decide_eq_true_2 by done.
  apply Z.eqb_neq in Hret. rewrite Hret. simpl.
  by apply flags_guard_on_0.
Qed.

(** ** Validation of the mode *)

Lemma recognized_modes (flags : Z) : recognized flags = bool_decide (flags ∈ modes).
Proof.
  unfold recognized, modes. case_bool_decide as Hin.
  - set_unfold in Hin. destruct Hin as [-> | [-> | [-> | [-> | []]]]];
      rewrite Z.eqb_refl; by rewrite ?orb_true_r.
  - set_unfold in Hin.
    repeat (apply orb_false_intro); apply Z.eqb_neq; naive_solver.
Qed.

(** C7. Mode validation returns each of the four recognized modes
    unchanged and turns every other value into forced; subsystem
    initialisation does the same to the boot-time status, and prints a
    warning that shows the refused value. *)
Theorem validate_flags_coerces (flags : Z) (bootverbose : bool) (st : kstate) :
  pax_segvguard_validate_flags flags =
    (if bool_decide (flags ∈ modes) then flags else PAX_FEATURE_FORCE_ENABLED)
  ∧ pax_segvguard_status (pax_segvguard_sysinit bootverbose st) =
      pax_segvguard_validate_flags st.(pax_segvguard_status)
  ∧ (st.(pax_segvguard_status) ∉ modes →
     LogInvalidSettings st.(pax_segvguard_status)
       ∈ console (pax_segvguard_sysinit bootverbose st)).
Proof.
  unfold pax_segvguard_validate_flags, pax_segvguard_sysinit.
  rewrite !recognized_modes. split; [done |].
  case_bool_decide as Hin; destruct bootverbose; simpl; split;
    try done; set_solver.
Qed.

(** ** The thread's flags *)


(** ** The exec-time check *)

Lemma same_but_console_refl (st : kstate) : same_but_console st st.
Proof. by repeat split. Qed.

Lemma same_but_console_printf (e : log_event) (st : kstate) :
  same_but_console st (printf e st).
Proof. by repeat split. Qed.

Lemma lookup_same_but_console (td : thread) (vn : vnode) (io : vop_results)
    (st : kstate) :
  same_but_console st (pax_segvguard_lookup td vn io st).2.
Proof.
  unfold pax_segvguard_lookup.
  repeat case_match; simpl;
    auto using same_but_console_refl, same_but_console_printf.
Qed.

(** A lookup whose identity derivation fails finds nothing. *)
Lemma lookup_derivation_fails (td : thread) (vn : vnode) (io : vop_results)
    (st : kstate) :
  derivation_fails io = true → (pax_segvguard_lookup td vn io st).1 = None.
Proof.
  unfold derivation_fails, pax_segvguard_lookup. intros Hf.
  destruct (negb (VOP_ISLOCKED io =? LK_EXCLUSIVE) && negb (vn_lock io =? 0));
    [done |].
  simpl in Hf. by rewrite Hf.
Qed.

Lemma check_same_but_console (td : thread) (v : option vnode) (name : string)
    (io : vop_results) (st : kstate) :
  same_but_console st (pax_segvguard_check td v name io st).2.
Proof.
  unfold pax_segvguard_check.
  destruct (negb (pax_segvguard_active_td td)); [apply same_but_console_refl |].
  destruct v as [vn |]; [| apply same_but_console_refl].
  pose proof (lookup_same_but_console td vn io st) as Hl.
  destruct (pax_segvguard_lookup td vn io st) as [[p |] st']; simpl in *;
    [| done].
  destruct (deref st' p) as [e |]; [| done].
  destruct (ncrashes_ge_max e st'); [| done].
  unfold same_but_console in *. simpl. done.
Qed.

(** C10. The exec-time check leaves the record table as it found it,
    whatever it answers: no record is created or removed, no crash count
    and no countdown changes. Nor does it touch the configuration. *)
Theorem check_preserves_table (td : thread) (v : option vnode) (name : string)
    (io : vop_results) (st : kstate) :
  pax_segvguard_hashtbl (pax_segvguard_check td v name io st).2
    = pax_segvguard_hashtbl st
  ∧ same_but_console st (pax_segvguard_check td v name io st).2.
Proof.
  split; [apply check_same_but_console.. ].
Qed.

(** C5, as the code has it. When the backing image is unavailable the
    check answers allow for a thread whose guard is inactive and the
    no-target error EFAULT for a thread whose guard is active, and leaves
    the state alone; when the image is there but the identity cannot be
    derived (the vnode cannot be locked or its attributes cannot be read)
    the check answers allow. *)
Theorem check_without_identity (td : thread) (name : string) (io : vop_results)
    (st : kstate) :
  pax_segvguard_check td None name io st =
    (if pax_segvguard_active_td td then EFAULT else 0, st)
  ∧ ∀ vn, derivation_fails io = true →
      (pax_segvguard_check td (Some vn) name io st).1 = 0.
Proof.
  split.
  - unfold pax_segvguard_check. by destruct (pax_segvguard_active_td td).
  - intros vn Hf. unfold pax_segvguard_check.
    destruct (negb (pax_segvguard_active_td td)); [done |].
    pose proof (lookup_derivation_fails td vn io st Hf) as Hl.
    destruct (pax_segvguard_lookup td vn io st) as [[p |] st']; by simpl in *.
Qed.

(** ** Allocation failure *)

(** C8. When the allocation of a record fails, the insert operation
    returns none and leaves the state as it is; the crash-recording entry
    point, having found no record and attempted the insertion, returns 0
    with the record table unchanged. *)
Theorem allocation_failure_not_tracked (td : thread) (vn : vnode)
    (name : string) (env : crash_env) (st : kstate) :
  add_malloc env = false →
  (∀ sbt io, pax_segvguard_add td vn sbt (add_malloc env) io st = (None, st))
  ∧ (pax_segvguard_active_td td = true → p_textvp td = Some vn →
     (pax_segvguard_lookup td vn (lookup_io env) st).1 = None →
     (pax_segvguard_segfault td name env st).1 = 0
     ∧ pax_segvguard_hashtbl (pax_segvguard_segfault td name env st).2
         = pax_segvguard_hashtbl st).
Proof.
  intros Hm. split.
  - intros. unfold pax_segvguard_add. by rewrite Hm.
  - intros Ha Hv Hl. unfold pax_segvguard_segfault.
    rewrite Ha, Hv. simpl.
    pose proof (lookup_same_but_console td vn (lookup_io env) st) as [Ht _].
    destruct (pax_segvguard_lookup td vn (lookup_io env) st) as [se st'].
    simpl in *. subst se. unfold pax_segvguard_add. by rewrite Hm.
Qed.

(** ** What the two entry points do with a record they find *)

Lemma deref_same_table (st st' : kstate) (p : se_ptr) :
  pax_segvguard_hashtbl st' = pax_segvguard_hashtbl st → deref st' p = deref st p.
Proof. unfold deref, bucket. by intros ->. Qed.

Lemma deref_store (p : se_ptr) (f : pax_segvguard_entry → pax_segvguard_entry)
    (st : kstate) (e : pax_segvguard_entry) :
  deref st p = Some e → deref (store p f st) p = Some (f e).
Proof.
  unfold deref, bucket, store. simpl. intros He.
  destruct (pax_segvguard_hashtbl st !! p.1) as [l |] eqn:Hl; [| done].
  simpl in He. rewrite list_lookup_alter_eq, Hl. simpl.
  by rewrite list_lookup_alter_eq, He.
Qed.

(** A lookup that finds a record printed nothing. *)
Lemma lookup_Some_state (td : thread) (vn : vnode) (io : vop_results)
    (st : kstate) (p : se_ptr) :
  (pax_segvguard_lookup td vn io st).1 = Some p →
  (pax_segvguard_lookup td vn io st).2 = st.
Proof. unfold pax_segvguard_lookup. by repeat case_match. Qed.

(** The exec-time check denies exactly when the lookup finds a record whose
    crash count is at or above the file's global
    [pax_segvguard_maxcrashes], read as a [size_t]. *)
Lemma check_denies_iff (td : thread) (vn : vnode) (name : string)
    (io : vop_results) (st : kstate) :
  EPERM ≠ 0 → pax_segvguard_active_td td = true →
  (pax_segvguard_check td (Some vn) name io st).1 = EPERM
  ↔ ∃ p e, (pax_segvguard_lookup td vn io st).1 = Some p
           ∧ deref st p = Some e
           ∧ to_size_t st.(pax_segvguard_maxcrashes) ≤ e.(se_ncrashes).
Proof.
  intros HE Ha. unfold pax_segvguard_check. rewrite Ha. simpl.
  pose proof (lookup_same_but_console td vn io st) as (Ht & _ & _ & _ & _ & Hmax).
  destruct (pax_segvguard_lookup td vn io st) as [[p |] st']; simpl in *.
  - rewrite (deref_same_table st st' p Ht).
    destruct (deref st p) as [e |] eqn:He.
    + unfold ncrashes_ge_max. rewrite Hmax.
      destruct (Z.leb_spec (to_size_t (pax_segvguard_maxcrashes st)) (se_ncrashes e)).
      * simpl. split; [eauto |done].
      * simpl. split; [done |]. intros (p' & e' & ? & ? & ?). simplify_eq. lia.
    + simpl. split; [done |]. intros (p' & e' & ? & ? & ?). simplify_eq.
  - split; [done |]. by intros (p' & e' & ? & _).
Qed.

(** A crash of an identity that has a record: the count goes up by one (on
    a [size_t]); when the new count is at or above the global
    [pax_segvguard_maxcrashes] the suspension is printed, with the global
    [pax_segvguard_suspension], and the countdown is armed again for the
    prison's suspension seconds times [hz], as an [int]. *)
Lemma segfault_known_record (td : thread) (vn : vnode) (name : string)
    (env : crash_env) (st : kstate) (p : se_ptr) (e : pax_segvguard_entry) :
  pax_segvguard_active_td td = true → p_textvp td = Some vn →
  (pax_segvguard_lookup td vn (lookup_io env) st).1 = Some p →
  deref st p = Some e →
  pax_segvguard_segfault td name env st =
    (0,
     let st1 := store p incr_ncrashes st in
     if to_size_t st.(pax_segvguard_maxcrashes) <=? to_size_t (e.(se_ncrashes) + 1)
     then callout_reset p (to_int ((pr_hbsd st (pax_get_prison_td td)).(suspension) * hz))
            (printf (LogSuspending name td.(p_pid) st.(pax_segvguard_suspension)
                       (to_size_t (e.(se_ncrashes) + 1))) st1)
     else st1).
Proof.
  intros Ha Hv Hl He. unfold pax_segvguard_segfault. rewrite Ha, Hv. simpl.
  pose proof (lookup_Some_state td vn (lookup_io env) st p Hl) as Hst.
  destruct (pax_segvguard_lookup td vn (lookup_io env) st) as [se st'].
  simpl in *. subst se st'.
  rewrite (deref_store p incr_ncrashes st e He).
  unfold ncrashes_ge_max. simpl.
  by destruct (to_size_t (pax_segvguard_maxcrashes st)
               <=? to_size_t (se_ncrashes e + 1)).
Qed.

(** ** The table invariant *)

Lemma fmap_alter_same {A B : Type} (g : A → B) (f : A → A) (i : nat) (l : list A) :
  (∀ x, g (f x) = g x) → g <$> alter f i l = g <$> l.
Proof.
  intros Hf. revert i. induction l as [| x l IH]; intros [| i]; simpl; [done.. | |].
  - by rewrite Hf.
  - f_equal. apply IH.
Qed.

Lemma elem_of_alter_inv {A : Type} (f : A → A) (i : nat) (l : list A) (x : A) :
  x ∈ alter f i l → x ∈ l ∨ ∃ y, y ∈ l ∧ x = f y.
Proof.
  revert i. induction l as [| y l IH]; intros [| i]; simpl; [by left.. | |].
  - intros [-> | Hx]%elem_of_cons.
    + right. exists y. split; [apply list_elem_of_here | done].
    + left. by apply list_elem_of_further.
  - intros [-> | Hx]%elem_of_cons; [left; apply list_elem_of_here |].
    destruct (IH i Hx) as [? | (z & ? & ?)].
    + left. by apply list_elem_of_further.
    + right. exists z. split; [by apply list_elem_of_further | done].
Qed.

Lemma concat_alter_cons {A : Type} (x : A) (b : nat) (tbl : list (list A)) :
  concat (alter (cons x) b tbl)
  ≡ₚ (if decide (b < length tbl)%nat then [x] else []) ++ concat tbl.
Proof.
  revert b. induction tbl as [| l tbl IH]; intros [| b]; simpl; [done.. | |].
  - done.
  - change (l ++ concat (alter (cons x) b tbl)
            ≡ₚ (if decide (S b < S (length tbl))%nat then [x] else [])
               ++ l ++ concat tbl).
    rewrite IH. destruct (decide (b < length tbl)%nat).
    + rewrite decide_True by lia. simpl. by rewrite Permutation_middle.
    + by rewrite decide_False by lia.
Qed.

Lemma concat_alter_same {A B : Type} (g : A → B) (f : A → A) (i b : nat)
    (tbl : list (list A)) :
  (∀ x, g (f x) = g x) →
  g <$> concat (alter (alter f i) b tbl) = g <$> concat tbl.
Proof.
  intros Hf. revert b. induction tbl as [| l tbl IH]; intros [| b]; simpl; [done.. | |].
  - by rewrite !fmap_app, fmap_alter_same.
  - rewrite !fmap_app. f_equal. apply IH.
Qed.

Lemma concat_alter_delete {A : Type} (i b : nat) (tbl : list (list A)) :
  concat (alter (delete i) b tbl) `sublist_of` concat tbl.
Proof.
  revert b. induction tbl as [| l tbl IH]; intros [| b]; simpl; [done.. | |].
  - apply sublist_app; [apply sublist_delete | done].
  - apply sublist_app; [done | apply IH].
Qed.

Lemma table_inv_same_table (st st' : kstate) :
  pax_segvguard_hashtbl st' = pax_segvguard_hashtbl st →
  table_inv st → table_inv st'.
Proof. unfold table_inv, bucket, records. by intros ->. Qed.

Lemma bucket_alter (g : list pax_segvguard_entry → list pax_segvguard_entry)
    (b b' : nat) (st : kstate) :
  bucket (set_hashtbl (alter g b st.(pax_segvguard_hashtbl)) st) b' =
    if decide (b = b')
    then match st.(pax_segvguard_hashtbl) !! b with Some l => g l | None => [] end
    else bucket st b'.
Proof.
  unfold bucket. simpl. rewrite list_lookup_alter.
  case_decide; [| done]. by destruct (pax_segvguard_hashtbl st !! b).
Qed.

Lemma elem_of_bucket (st : kstate) (b : nat) (l : list pax_segvguard_entry)
    (se : pax_segvguard_entry) :
  st.(pax_segvguard_hashtbl) !! b = Some l → se ∈ l → se ∈ bucket st b.
Proof. unfold bucket. by intros ->. Qed.

Lemma table_inv_store (p : se_ptr) (f : pax_segvguard_entry → pax_segvguard_entry)
    (st : kstate) :
  (∀ e, identity (f e) = identity e) → table_inv st → table_inv (store p f st).
Proof.
  intros Hf [Hb Hn]. split.
  - intros b se. unfold store. rewrite bucket_alter.
    case_decide as Hpb; [| apply Hb]. subst b.
    destruct (pax_segvguard_hashtbl st !! p.1) as [l |] eqn:Hl;
      [| by intros ?%elem_of_nil].
    intros [Hin | (y & Hy & ->)]%elem_of_alter_inv.
    + eapply Hb, elem_of_bucket; done.
    + rewrite (bucket_identity _ _ (Hf y)). eapply Hb, elem_of_bucket; done.
  - unfold records, store. simpl. by rewrite concat_alter_same.
Qed.

Lemma table_inv_insert (se : pax_segvguard_entry) (st : kstate) :
  identity se ∉ identity <$> records st → table_inv st →
  table_inv (set_hashtbl (alter (cons se) (PAX_SEGVGUARD_BUCKET se)
                            st.(pax_segvguard_hashtbl)) st).
Proof.
  intros Hfresh [Hb Hn]. split.
  - intros b e. rewrite bucket_alter.
    case_decide as Hpb; [| apply Hb]. subst b.
    destruct (pax_segvguard_hashtbl st !! PAX_SEGVGUARD_BUCKET se) as [l |] eqn:Hl;
      [| by intros ?%elem_of_nil].
    intros [-> | Hin]%elem_of_cons; [done |].
    eapply Hb, elem_of_bucket; done.
  - unfold records in *. simpl. rewrite concat_alter_cons.
    case_decide; simpl; [| done]. by apply NoDup_cons.
Qed.

Lemma table_inv_cleaner (p : se_ptr) (st : kstate) :
  table_inv st → table_inv (pax_segvguard_cleaner p st).
Proof.
  intros [Hb Hn]. unfold pax_segvguard_cleaner.
  destruct (deref st p) as [e |]; [| done]. split.
  - intros b se.
    change (pax_segvguard_hashtbl (printf _ st)) with (pax_segvguard_hashtbl st).
    pose proof (bucket_alter (delete p.2) p.1 b (printf (LogExpired (se_inode e) (se_mntpoint e) (se_uid e)) st)) as Hba.
    simpl in Hba. simpl. unfold set_hashtbl in *. simpl in *. rewrite Hba. clear Hba.
    case_decide as Hpb; [| apply Hb]. subst b.
    destruct (pax_segvguard_hashtbl st !! p.1) as [l |] eqn:Hl;
      [| by intros ?%elem_of_nil].
    intros Hin%list_elem_of_delete_inv. eapply Hb, elem_of_bucket; done.
  - unfold records in *. simpl.
    eapply sublist_NoDup; [exact Hn |].
    apply fmap_sublist, concat_alter_delete.
Qed.


Lemma lookup_unfold (td : thread) (vn : vnode) (io : vop_results) (st : kstate) :
  derivation_fails io = false →
  pax_segvguard_lookup td vn io st =
    (let mntpoint := strncpy vn.(f_mntonname) MNAMELEN in
     let b := PAX_SEGVGUARD_BUCKET
                (mk_entry td.(cr_ruid) vn.(va_fileid) mntpoint 0 0) in
     match list_find (λ se, Is_true (lookup_test vn.(va_fileid) mntpoint
                                       td.(cr_ruid) se)) (bucket st b) with
     | Some (i, _) => Some (b, i)
     | None => None
     end, st).
Proof.
  unfold derivation_fails, pax_segvguard_lookup.
  intros [-> ->]%orb_false_elim. simpl. by repeat case_match.
Qed.

Lemma elem_of_records (st : kstate) (e : pax_segvguard_entry) :
  e ∈ records st → ∃ b, e ∈ bucket st b.
Proof.
  unfold records. intros (l & Hl & He)%list_elem_of_In%in_concat.
  apply list_elem_of_In, list_elem_of_lookup in Hl as [b Hb].
  exists b. eapply elem_of_bucket; [done |]. by apply list_elem_of_In.
Qed.

Lemma lookup_None_fresh (td : thread) (vn : vnode) (io : vop_results)
    (st : kstate) :
  derivation_fails io = false → table_inv st →
  (pax_segvguard_lookup td vn io st).1 = None →
  identity_of td vn ∉ identity <$> records st.
Proof.
  intros Hd [Hb _]. rewrite lookup_unfold by done. simpl.
  destruct (list_find _ _) as [[i e] |] eqn:Hf; [done |]. intros _.
  apply list_find_None in Hf.
  intros (e & He & Hin)%list_elem_of_fmap.
  destruct (elem_of_records st e Hin) as [b Hbe].
  pose proof (Hb b e Hbe) as Hbk.
  rewrite <- (bucket_identity _ _ He) in Hbk. subst b.
  rewrite Forall_forall in Hf. apply (Hf e).
  - exact Hbe.
  - apply Is_true_true, lookup_test_identity. by rewrite <- He.
Qed.

Lemma add_derivation_fails (td : thread) (vn : vnode) (sbt : Z) (m : bool)
    (io : vop_results) (st : kstate) :
  derivation_fails io = true →
  pax_segvguard_hashtbl (pax_segvguard_add td vn sbt m io st).2
    = pax_segvguard_hashtbl st.
Proof.
  unfold derivation_fails, pax_segvguard_add. intros Hf.
  destruct m; [| done]. simpl.
  destruct (negb (VOP_ISLOCKED io =? LK_EXCLUSIVE) && negb (vn_lock io =? 0));
    [done |].
  simpl in Hf. by rewrite Hf.
Qed.

Lemma callout_reset_table_inv (p : se_ptr) (to_ticks : Z) (st : kstate) :
  table_inv st → table_inv (callout_reset p to_ticks st).
Proof. intros. by apply table_inv_store. Qed.

Lemma add_table_inv (td : thread) (vn : vnode) (sbt : Z) (m : bool)
    (io : vop_results) (st : kstate) :
  table_inv st → identity_of td vn ∉ identity <$> records st →
  table_inv (pax_segvguard_add td vn sbt m io st).2.
Proof.
  intros Hinv Hfresh. unfold pax_segvguard_add.
  destruct m; [| done]. simpl.
  destruct (negb (VOP_ISLOCKED io =? LK_EXCLUSIVE) && negb (vn_lock io =? 0));
    [done |].
  destruct (negb (VOP_GETATTR io =? 0)); simpl.
  - by apply (table_inv_same_table st).
  - apply callout_reset_table_inv. by apply table_inv_insert.
Qed.

Lemma segfault_table_inv (td : thread) (name : string) (env : crash_env)
    (st : kstate) :
  derivation_stable env → table_inv st →
  table_inv (pax_segvguard_segfault td name env st).2.
Proof.
  intros Hstable Hinv. unfold pax_segvguard_segfault.
  destruct (negb (pax_segvguard_active_td td)); [done |].
  destruct (p_textvp td) as [vn |]; [| done].
  destruct (derivation_fails (lookup_io env)) eqn:Hd.
  - pose proof (lookup_derivation_fails td vn (lookup_io env) st Hd) as Hl.
    pose proof (lookup_same_but_console td vn (lookup_io env) st) as [Ht _].
    destruct (pax_segvguard_lookup td vn (lookup_io env) st) as [se st'].
    simpl in *. subst se.
    pose proof (add_derivation_fails td vn (sbinuptime env) (add_malloc env)
                  (add_io env) st' (Hstable Hd)) as Ha.
    destruct (pax_segvguard_add _ _ _ _ _ st') as [r st'']. simpl in *.
    apply (table_inv_same_table st); [congruence | done].
  - pose proof (lookup_None_fresh td vn (lookup_io env) st Hd Hinv) as Hfresh.
    rewrite lookup_unfold in * by done. simpl in *.
    destruct (list_find _ _) as [[i e] |]; simpl in *.
    + set (st1 := store _ incr_ncrashes st).
      assert (table_inv st1) as Hinv1 by by apply table_inv_store.
      destruct (deref st1 _) as [e' |]; [| done].
      destruct (ncrashes_ge_max e' st1); [| done]. simpl.
      apply callout_reset_table_inv.
      by apply (table_inv_same_table st1).
    + pose proof (add_table_inv td vn (sbinuptime env) (add_malloc env)
                    (add_io env) st Hinv (Hfresh eq_refl)) as Ha.
      by destruct (pax_segvguard_add _ _ _ _ _ st).
Qed.

Lemma empty_table_inv (n : nat) (st : kstate) :
  table_inv (set_hashtbl (replicate n []) st).
Proof.
  unfold table_inv, bucket, records, set_hashtbl.
  cbn [pax_segvguard_hashtbl]. split.
  - intros b se.
    destruct (replicate n (@nil pax_segvguard_entry) !! b) as [l |] eqn:Hl;
      cbn [default from_option id].
    + apply lookup_replicate in Hl as [-> _]. by intros ?%elem_of_nil.
    + by intros ?%elem_of_nil.
  - induction n as [| n IH]; [constructor | done].
Qed.

Lemma sysinit_table_inv (bootverbose : bool) (st : kstate) :
  table_inv (pax_segvguard_sysinit bootverbose st).
Proof. unfold pax_segvguard_sysinit. apply empty_table_inv. Qed.

(** At every point of a run whose VFS answers are stable, every record sits
    in the bucket of its key and no two records have the same identity. *)
Lemma reachable_table_inv (st : kstate) : reachable st → table_inv st.
Proof.
  induction 1 as [bv st | td name env st _ IH Hs | td v name io st _ IH | p st _ IH].
  - apply sysinit_table_inv.
  - by apply segfault_table_inv.
  - apply (table_inv_same_table st); [| done].
    apply check_same_but_console.
  - by apply table_inv_cleaner.
Qed.


Lemma NoDup_fmap_elem_inj {A B : Type} (f : A → B) (l : list A) (x y : A) :
  NoDup (f <$> l) → x ∈ l → y ∈ l → f x = f y → x = y.
Proof.
  intros Hn [i Hi]%list_elem_of_lookup [j Hj]%list_elem_of_lookup Hf.
  assert (i = j) as ->.
  { apply (NoDup_lookup _ _ _ (f x) Hn).
    - by rewrite list_lookup_fmap, Hi.
    - by rewrite list_lookup_fmap, Hj, Hf. }
  congruence.
Qed.

Lemma bucket_records (st : kstate) (b : nat) (e : pax_segvguard_entry) :
  e ∈ bucket st b → e ∈ records st.
Proof.
  unfold bucket, records.
  destruct (pax_segvguard_hashtbl st !! b) as [l |] eqn:Hl; simpl;
    [| by intros ?%elem_of_nil].
  intros He. apply list_elem_of_In, in_concat. exists l.
  split; apply list_elem_of_In; [by eapply list_elem_of_lookup_2 | done].
Qed.

(** In a well-formed table the lookup finds the record of the identity,
    wherever the table holds one. *)
Lemma lookup_finds_record (td : thread) (vn : vnode) (io : vop_results)
    (st : kstate) (e : pax_segvguard_entry) :
  derivation_fails io = false → table_inv st →
  (∃ p, (pax_segvguard_lookup td vn io st).1 = Some p ∧ deref st p = Some e)
  ↔ e ∈ records_of st (identity_of td vn).
Proof.
  intros Hd [Hb Hn]. rewrite lookup_unfold by done. simpl.
  unfold records_of. rewrite list_elem_of_filter.
  set (mnt := strncpy (f_mntonname vn) MNAMELEN).
  set (b := PAX_SEGVGUARD_BUCKET _).
  split.
  - intros (p & Hp & He).
    destruct (list_find _ _) as [[i e'] |] eqn:Hf; [| done].
    injection Hp as <-. apply list_find_Some in Hf as (Hi & Ht & _).
    unfold deref in He. simpl in He. rewrite Hi in He. injection He as ->.
    split.
    + by apply Is_true_true, lookup_test_identity in Ht.
    + eapply bucket_records, list_elem_of_lookup_2, Hi.
  - intros [Hid Hin].
    destruct (elem_of_records st e Hin) as [b' Hbe].
    assert (b' = b) as ->.
    { rewrite <- (Hb b' e Hbe). by apply bucket_identity. }
    destruct (list_find (λ se, Is_true (lookup_test (va_fileid vn) mnt (cr_ruid td) se))
                (bucket st b)) as [[i e'] |] eqn:Hf.
    + apply list_find_Some in Hf as (Hi & Ht & _).
      exists (b, i). split; [done |]. unfold deref. simpl. rewrite Hi. f_equal.
      apply (NoDup_fmap_elem_inj identity (records st)); [done | | done |].
      * eapply bucket_records, list_elem_of_lookup_2, Hi.
      * apply Is_true_true, lookup_test_identity in Ht. by rewrite Ht, Hid.
    + apply list_find_None in Hf. rewrite Forall_forall in Hf.
      destruct (Hf e Hbe). by apply Is_true_true, lookup_test_identity.
Qed.

(** What the exec-time check decides, in the words of the table: with a
    well-formed table and an identity that derives, it denies exactly when
    the table holds a record of the identity whose crash count is at or
    above the global [pax_segvguard_maxcrashes], read as a [size_t]. *)
Lemma check_denies_iff_record (td : thread) (vn : vnode) (name : string)
    (io : vop_results) (st : kstate) :
  EPERM ≠ 0 → pax_segvguard_active_td td = true →
  derivation_fails io = false → table_inv st →
  (pax_segvguard_check td (Some vn) name io st).1 = EPERM
  ↔ ∃ e, e ∈ records_of st (identity_of td vn)
         ∧ to_size_t st.(pax_segvguard_maxcrashes) ≤ e.(se_ncrashes).
Proof.
  intros HE Ha Hd Hinv. rewrite check_denies_iff by done. split.
  - intros (p & e & Hp & He & Hge). exists e. split; [| done].
    apply (lookup_finds_record td vn io st e Hd Hinv). eauto.
  - intros (e & He & Hge).
    apply (lookup_finds_record td vn io st e Hd Hinv) in He as (p & Hp & He).
    eauto.
Qed.
(** A record the insert operation creates has crash count 1, the identity
    the thread and the vnode derive to, and a countdown of the prison's
    expiry seconds times [hz], as an [int]. *)
Lemma add_Some_record (td : thread) (vn : vnode) (sbt : Z) (m : bool)
    (io : vop_results) (st : kstate) (p : se_ptr) :
  length st.(pax_segvguard_hashtbl) = Z.to_nat pax_segvguard_hashsize →
  (pax_segvguard_add td vn sbt m io st).1 = Some p →
  ∃ e, deref (pax_segvguard_add td vn sbt m io st).2 p = Some e
       ∧ se_ncrashes e = 1
       ∧ identity e = identity_of td vn
       ∧ se_callout e = to_int ((pr_hbsd st (pax_get_prison_td td)).(expiry) * hz).
Proof.
  intros Hlen. unfold pax_segvguard_add.
  destruct m; [| done]. simpl.
  destruct (negb (VOP_ISLOCKED io =? LK_EXCLUSIVE) && negb (vn_lock io =? 0));
    [done |].
  destruct (negb (VOP_GETATTR io =? 0)); [done |]. simpl. intros [= <-].
  set (se := mk_entry _ _ _ 1 0).
  assert (PAX_SEGVGUARD_BUCKET se < length (pax_segvguard_hashtbl st))%nat as Hb.
  { rewrite Hlen. unfold PAX_SEGVGUARD_BUCKET, PAX_SEGVGUARD_HASH.
    apply Z2Nat.inj_lt; [apply Z.mod_pos_bound; done | done |].
    apply Z.mod_pos_bound. done. }
  apply lookup_lt_is_Some in Hb as [l Hl].
  eexists. split.
  - unfold callout_reset. apply deref_store.
    unfold deref, bucket. simpl. rewrite list_lookup_alter_eq, Hl. done.
  - done.
Qed.

End properties.

(** * The properties on the concrete run *)

Module RunFacts.
Import Run.

#[local] Existing Instance hbsd_amd64.

Lemma init_succeeds : init = Some booted.
Proof. vm_compute. reflexivity. Qed.

Lemma hbsd_modes_distinct : modes_distinct.
Proof.
  split.
  - repeat constructor; vm_compute; discriminate.
  - apply (bool_decide_unpack _). vm_compute. reflexivity.
Qed.

Lemma hbsd_bits_exclusive : bits_exclusive.
Proof. reflexivity. Qed.

Lemma booted_mode_range : int_range (scope_mode booted (td_in prison0)).
Proof. vm_compute. split; [discriminate | reflexivity]. Qed.

(** The jail run keeps the table invariant: its VFS answers are stable. *)
Lemma jail_crashed2_inv : table_inv jail_crashed2.
Proof.
  unfold jail_crashed2, jail_crashed1, crash.
  do 2 (apply segfault_table_inv; [done |]).
  apply (table_inv_same_table booted); [reflexivity |].
  unfold booted. rewrite init_succeeds. simpl.
  apply (table_inv_same_table (pax_segvguard_sysinit false boot));
    [reflexivity | apply sysinit_table_inv].
Qed.

(** C1, at a failing input. root of a jail lowered its [max_crashes] to 2
    and the victim crashed twice in the jail: its one record counts 2
    crashes, the threshold of the scope is 2, and the exec-time check still
    answers 0 (allow), because it compares the count with the global
    [pax_segvguard_maxcrashes], which is 5. *)
Theorem jail_threshold_not_consulted :
  maxcrashes (pr_hbsd jail_crashed2 1) = 2
  ∧ pax_segvguard_maxcrashes jail_crashed2 = 5
  ∧ se_ncrashes <$> records_of jail_crashed2 (identity_of (td_in 1) victim) = [2]
  ∧ pax_segvguard_active_td (td_in 1) = true
  ∧ derivation_fails io_ok = false
  ∧ (pax_segvguard_check (td_in 1) (Some victim) "victim" io_ok jail_crashed2).1 = 0.
Proof. vm_compute. repeat split. Qed.

(** C3, at a failing input. In the same jail the second crash raises the
    count of the record to 2, the threshold of the scope, and the countdown
    stays the one armed at creation (120 seconds, the expiry): it is not
    re-armed for the 600 seconds of the suspension, and nothing is
    printed. *)
Theorem jail_threshold_not_rearmed :
  maxcrashes (pr_hbsd jail_crashed1 1) = 2
  ∧ suspension (pr_hbsd jail_crashed1 1) = 600
  ∧ (λ e, (se_ncrashes e, se_callout e))
      <$> records_of jail_crashed1 (identity_of (td_in 1) victim) = [(1, 120 * hz)]
  ∧ (λ e, (se_ncrashes e, se_callout e))
      <$> records_of (crash (td_in 1) env_ok jail_crashed1)
            (identity_of (td_in 1) victim) = [(2, 120 * hz)]
  ∧ console (crash (td_in 1) env_ok jail_crashed1) = [].
Proof. vm_compute. repeat split. Qed.

(** C6, at a failing input. The victim has a record with one crash. It
    crashes again; this time the [VOP_GETATTR] of the lookup fails and the
    one of the insertion succeeds. The table then holds two records of the
    same identity, each with count 1: the crash was not added to the record
    that was there. *)
Theorem transient_failure_duplicates_record :
  se_ncrashes <$> records_of host_crashed1 (identity_of (td_in prison0) victim) = [1]
  ∧ se_ncrashes <$> records_of host_crashed2 (identity_of (td_in prison0) victim)
    = [1; 1]
  ∧ ¬ NoDup (identity <$> records host_crashed2).
Proof.
  split; [vm_compute; reflexivity |]. split; [vm_compute; reflexivity |].
  apply (bool_decide_eq_false_1 _). vm_compute. reflexivity.
Qed.

(** The opt-in row of the decision table, as the specification words it,
    fails where the attributes of the binary cannot be retrieved: the host
    is in opt-in mode, the victim is not privilege-elevated, its override
    word requests guard-inactive and nothing else, [VOP_GETATTR] fails with
    EACCES, and the resolver returns guard-active. *)
Lemma decision_table_optin_row_counterexample :
  scope_mode booted (td_in prison0) = PAX_FEATURE_OPTIN
  ∧ ¬ (pax_segvguard_setup_flags booted (mk_imgp victim) (td_in prison0)
         PAX_NOTE_NOSEGVGUARD 13 = guard_active
       ↔ privilege_elevated victim = true
         ∨ requests PAX_NOTE_NOSEGVGUARD PAX_NOTE_SEGVGUARD = true).
Proof.
  split; [vm_compute; reflexivity |].
  intros [Hon _]. destruct Hon as [He | Hr]; [vm_compute; reflexivity | |].
  - vm_compute in He. discriminate He.
  - vm_compute in Hr. discriminate Hr.
Qed.

(** A witness of the decision table: the host is in opt-in mode, the victim
    is not privilege-elevated and requests nothing. With its attributes
    retrieved the resolver gives guard-inactive, and with a retrieval that
    fails guard-active. *)
Lemma setup_flags_decision_table_witness :
  modes_distinct ∧ bits_exclusive ∧ int_range (scope_mode booted (td_in prison0))
  ∧ pax_segvguard_setup_flags booted (mk_imgp victim) (td_in prison0) 0 0
    = guard_inactive
  ∧ pax_segvguard_setup_flags booted (mk_imgp victim) (td_in prison0) 0 13
    = guard_active.
Proof.
  split; [apply hbsd_modes_distinct |].
  split; [apply hbsd_bits_exclusive |].
  split; [apply booted_mode_range |].
  pose proof (setup_flags_decision_table booted (mk_imgp victim) (td_in prison0)
                0 0 hbsd_modes_distinct hbsd_bits_exclusive
                booted_mode_range) as (_ & _ & Hok & _).
  pose proof (setup_flags_decision_table booted (mk_imgp victim) (td_in prison0)
                0 13 hbsd_modes_distinct hbsd_bits_exclusive
                booted_mode_range) as (_ & _ & Hfail & _).
  split.
  - etrans; [apply Hok |]; vm_compute; reflexivity.
  - etrans; [apply Hfail |]; vm_compute; reflexivity.
Defined.

(** A failing attribute retrieval is not "not elevated": in opt-in mode,
    with a binary that is not privilege-elevated and requests nothing, it
    gives guard-active, not guard-inactive. *)
Lemma optin_getattr_failure_counterexample :
  scope_mode booted (td_in prison0) = PAX_FEATURE_OPTIN
  ∧ privilege_elevated victim = false
  ∧ requests 0 PAX_NOTE_SEGVGUARD = false
  ∧ pax_segvguard_setup_flags booted (mk_imgp victim) (td_in prison0) 0 5
    ≠ guard_inactive.
Proof. vm_compute. repeat split. discriminate. Qed.

(** The same input, as the code decides it. *)
Lemma optin_getattr_failure_enforces_witness :
  pax_segvguard_setup_flags booted (mk_imgp victim) (td_in prison0) 0 5
  = guard_active.
Proof.
  apply (optin_getattr_failure_enforces booted (mk_imgp victim) (td_in prison0) 0 5
           hbsd_modes_distinct hbsd_bits_exclusive);
    vm_compute; [reflexivity | discriminate].
Defined.

(** A missing backing image is not a no-op: with the guard active the check
    does not answer allow. *)
Lemma check_null_vnode_counterexample :
  pax_segvguard_active_td (td_in prison0) = true
  ∧ (pax_segvguard_check (td_in prison0) None "victim" io_ok booted).1 ≠ 0.
Proof. vm_compute. split; [reflexivity | discriminate]. Qed.

(** The victim has a record; a check that cannot read its attributes
    allows. *)
Lemma check_without_identity_witness :
  derivation_fails io_eio = true
  ∧ (pax_segvguard_check (td_in prison0) (Some victim) "victim" io_eio
       host_crashed1).1 = 0.
Proof.
  split; [reflexivity |].
  apply (check_without_identity (td_in prison0) "victim" io_eio host_crashed1).
  reflexivity.
Defined.

(** A boot-time status of 7 is refused with a warning. *)
Lemma validate_flags_coerces_witness :
  (7 ∉ modes)
  ∧ (LogInvalidSettings 7 ∈ console (pax_segvguard_sysinit false boot_bad_status)).
Proof.
  assert (7 ∉ modes) as Hn.
  { apply (bool_decide_eq_false_1 _). vm_compute. reflexivity. }
  split; [exact Hn |].
  apply (validate_flags_coerces 7 false boot_bad_status). exact Hn.
Defined.


(** A first crash of the victim while [malloc] fails. *)
Lemma allocation_failure_not_tracked_witness :
  add_malloc env_nomem = false
  ∧ (pax_segvguard_segfault (td_in prison0) "victim" env_nomem booted).1 = 0
  ∧ pax_segvguard_hashtbl
      (pax_segvguard_segfault (td_in prison0) "victim" env_nomem booted).2
    = pax_segvguard_hashtbl booted.
Proof.
  split; [reflexivity |].
  apply (allocation_failure_not_tracked (td_in prison0) victim "victim"
           env_nomem booted); vm_compute; reflexivity.
Defined.

End RunFacts.

(** * The rest of the file's behaviour *)

Section behaviour.
Context `{kernel_headers}.

(** ** Lists of records under the table operations *)

Lemma filter_alter_other {A : Type} (P : A → Prop) `{!∀ x, Decision (P x)}
    (f : A → A) (i : nat) (l : list A) :
  (∀ x, l !! i = Some x → ¬ P x ∧ ¬ P (f x)) →
  filter P (alter f i l) = filter P l.
Proof.
  revert i. induction l as [| y l IH]; intros [| i] Hx; simpl; [done.. | |].
  - destruct (Hx y eq_refl) as [H1 H2].
    by rewrite !filter_cons, !decide_False.
  - rewrite !filter_cons. change (list_alter f i l) with (alter f i l).
    rewrite IH; [done |]. intros x Hi. by apply Hx.
Qed.

Lemma filter_concat_alter_other {A : Type} (P : A → Prop) `{!∀ x, Decision (P x)}
    (f : A → A) (i b : nat) (tbl : list (list A)) :
  (∀ l x, tbl !! b = Some l → l !! i = Some x → ¬ P x ∧ ¬ P (f x)) →
  filter P (concat (alter (alter f i) b tbl)) = filter P (concat tbl).
Proof.
  revert b. induction tbl as [| l tbl IH]; intros [| b] Hx; simpl; [done.. | |].
  - rewrite !filter_app, filter_alter_other; [done |]. intros x. by apply Hx.
  - rewrite !filter_app. f_equal. apply IH. intros l' x. by apply Hx.
Qed.

Lemma filter_concat_alter_cons {A : Type} (P : A → Prop) `{!∀ x, Decision (P x)}
    (x : A) (b : nat) (tbl : list (list A)) :
  ¬ P x → filter P (concat (alter (cons x) b tbl)) = filter P (concat tbl).
Proof.
  intros Hx. revert b.
  induction tbl as [| l tbl IH]; intros [| b]; simpl; [done.. | |].
  - by rewrite filter_cons, decide_False.
  - rewrite !filter_app. f_equal. apply IH.
Qed.

Lemma filter_delete_other {A : Type} (P : A → Prop) `{!∀ x, Decision (P x)}
    (i : nat) (l : list A) :
  (∀ x, l !! i = Some x → ¬ P x) → filter P (delete i l) = filter P l.
Proof.
  revert i. induction l as [| y l IH]; intros [| i] Hx; simpl; [done.. | |].
  - by rewrite filter_cons, decide_False by by apply Hx.
  - rewrite !filter_cons. change (list_delete i l) with (delete i l).
    rewrite IH; [done |]. intros x. by apply Hx.
Qed.

Lemma filter_concat_alter_delete {A : Type} (P : A → Prop) `{!∀ x, Decision (P x)}
    (i b : nat) (tbl : list (list A)) :
  (∀ l x, tbl !! b = Some l → l !! i = Some x → ¬ P x) →
  filter P (concat (alter (delete i) b tbl)) = filter P (concat tbl).
Proof.
  revert b. induction tbl as [| l tbl IH]; intros [| b] Hx; simpl; [done.. | |].
  - rewrite !filter_app, filter_delete_other; [done |]. intros x. by apply Hx.
  - rewrite !filter_app. f_equal. apply IH. intros l' x. by apply Hx.
Qed.

Lemma filter_none {A : Type} (P : A → Prop) `{!∀ x, Decision (P x)} (l : list A) :
  (∀ x, x ∈ l → ¬ P x) → filter P l = [].
Proof.
  induction l as [| y l IH]; intros Hl; [done |].
  rewrite filter_cons, decide_False by (apply Hl; apply list_elem_of_here).
  apply IH. intros x Hx. apply Hl. by apply list_elem_of_further.
Qed.

(** With one record per identity, the records of an identity are the one
    record that has it. *)
Lemma filter_unique {A B : Type} `{!EqDecision B} (f : A → B) (l : list A) (x : A) :
  NoDup (f <$> l) → x ∈ l → filter (λ y, f y = f x) l = [x].
Proof.
  induction l as [| y l IH]; intros Hn Hx; [by apply elem_of_nil in Hx |].
  rewrite fmap_cons in Hn. apply NoDup_cons in Hn as [Hy Hn].
  rewrite filter_cons. apply elem_of_cons in Hx as [-> | Hx].
  - rewrite decide_True by done. f_equal.
    apply filter_none. intros z Hz Hfz. apply Hy.
    rewrite <- Hfz. by apply list_elem_of_fmap_2.
  - rewrite decide_False; [by apply IH |].
    intros Hfy. apply Hy. rewrite Hfy. by apply list_elem_of_fmap_2.
Qed.

Lemma records_of_unique (st : kstate) (e : pax_segvguard_entry) :
  table_inv st → e ∈ records st → records_of st (identity e) = [e].
Proof. intros [_ Hn] He. unfold records_of. by apply filter_unique. Qed.

Lemma records_of_none (st : kstate) (id : Z * Z * list Z) :
  id ∉ identity <$> records st → records_of st id = [].
Proof.
  intros Hid. unfold records_of. apply filter_none.
  intros e He <-. apply Hid. by apply list_elem_of_fmap_2.
Qed.

Lemma deref_records (st : kstate) (p : se_ptr) (e : pax_segvguard_entry) :
  deref st p = Some e → e ∈ records st.
Proof.
  unfold deref. intros He. eapply bucket_records, list_elem_of_lookup_2, He.
Qed.

(** A pointer the lookup returns points to a record of the identity looked
    up, in the bucket of the key. *)
Lemma lookup_Some_deref (td : thread) (vn : vnode) (io : vop_results)
    (st : kstate) (p : se_ptr) :
  (pax_segvguard_lookup td vn io st).1 = Some p →
  derivation_fails io = false
  ∧ p.1 = PAX_SEGVGUARD_BUCKET (mk_entry td.(cr_ruid) vn.(va_fileid)
                                  (strncpy vn.(f_mntonname) MNAMELEN) 0 0)
  ∧ ∃ e, deref st p = Some e ∧ identity e = identity_of td vn.
Proof.
  destruct (derivation_fails io) eqn:Hd.
  { by rewrite lookup_derivation_fails. }
  rewrite lookup_unfold by done. simpl.
  destruct (list_find _ _) as [[i e] |] eqn:Hf; [| done].
  intros [= <-]. apply list_find_Some in Hf as (Hi & Ht & _).
  split; [done |]. split; [done |]. exists e. split; [done |].
  by apply Is_true_true, lookup_test_identity in Ht.
Qed.


(** ** What a crash changes *)

Lemma records_of_same_table (st st' : kstate) (id : Z * Z * list Z) :
  pax_segvguard_hashtbl st' = pax_segvguard_hashtbl st →
  records_of st' id = records_of st id.
Proof. unfold records_of, records. by intros ->. Qed.

Lemma records_of_store (p : se_ptr) (f : pax_segvguard_entry → pax_segvguard_entry)
    (st : kstate) (J : Z * Z * list Z) :
  (∀ e, deref st p = Some e → identity e ≠ J ∧ identity (f e) ≠ J) →
  records_of (store p f st) J = records_of st J.
Proof.
  intros He. unfold records_of, records, store. simpl.
  apply filter_concat_alter_other. intros l x Hl Hx. apply He.
  unfold deref, bucket. by rewrite Hl.
Qed.

Lemma add_unfold (td : thread) (vn : vnode) (sbt : Z) (io : vop_results)
    (st : kstate) :
  derivation_fails io = false →
  pax_segvguard_add td vn sbt true io st =
    (let se := mk_entry td.(cr_ruid) vn.(va_fileid)
                 (strncpy vn.(f_mntonname) MNAMELEN) 1 0 in
     let b := PAX_SEGVGUARD_BUCKET se in
     (Some (b, O),
      callout_reset (b, O)
        (to_int ((pr_hbsd st (pax_get_prison_td td)).(expiry) * hz))
        (set_hashtbl (alter (cons se) b st.(pax_segvguard_hashtbl)) st))).
Proof.
  unfold derivation_fails, pax_segvguard_add.
  by intros [-> ->]%orb_false_elim.
Qed.

Lemma add_None_table (td : thread) (vn : vnode) (sbt : Z) (m : bool)
    (io : vop_results) (st : kstate) :
  (pax_segvguard_add td vn sbt m io st).1 = None →
  pax_segvguard_hashtbl (pax_segvguard_add td vn sbt m io st).2
    = pax_segvguard_hashtbl st.
Proof.
  destruct (derivation_fails io) eqn:Hd; [intros _; by apply add_derivation_fails |].
  destruct m; [by rewrite add_unfold | done].
Qed.

Lemma deref_insert_head (se x : pax_segvguard_entry) (b : nat) (st : kstate) :
  deref (set_hashtbl (alter (cons se) b st.(pax_segvguard_hashtbl)) st) (b, O)
    = Some x → x = se.
Proof.
  unfold deref. simpl. rewrite bucket_alter, decide_True by done.
  destruct (pax_segvguard_hashtbl st !! b); simpl; congruence.
Qed.

Lemma add_records_of_other (td : thread) (vn : vnode) (sbt : Z) (m : bool)
    (io : vop_results) (st : kstate) (J : Z * Z * list Z) :
  identity_of td vn ≠ J →
  records_of (pax_segvguard_add td vn sbt m io st).2 J = records_of st J.
Proof.
  intros HJ.
  destruct (pax_segvguard_add td vn sbt m io st).1 eqn:Ha;
    [| by apply records_of_same_table, add_None_table].
  destruct (derivation_fails io) eqn:Hd.
  { unfold derivation_fails, pax_segvguard_add in *.
    destruct m; [| done]. simpl in *.
    destruct (negb (VOP_ISLOCKED io =? LK_EXCLUSIVE) && negb (vn_lock io =? 0));
      [done |].
    simpl in Hd. by rewrite Hd in Ha. }
  destruct m; [| done]. rewrite add_unfold by done. simpl.
  unfold callout_reset. rewrite records_of_store.
  - unfold records_of, records. simpl. by apply filter_concat_alter_cons.
  - by intros e ->%deref_insert_head.
Qed.

(** X10. A crash changes the records of its own identity only: the records
    of every other identity (their counts and their countdowns) are after
    the call what they were before it. *)
Theorem segfault_leaves_other_identities (td : thread) (name : string)
    (env : crash_env) (st : kstate) (J : Z * Z * list Z) :
  (∀ vn, p_textvp td = Some vn → identity_of td vn ≠ J) →
  records_of (pax_segvguard_segfault td name env st).2 J = records_of st J.
Proof.
  intros HJ. unfold pax_segvguard_segfault.
  destruct (negb (pax_segvguard_active_td td)); [done |].
  destruct (p_textvp td) as [vn |]; [| done].
  specialize (HJ vn eq_refl).
  pose proof (lookup_Some_deref td vn (lookup_io env) st) as HD.
  pose proof (lookup_Some_state td vn (lookup_io env) st) as Hst.
  pose proof (lookup_same_but_console td vn (lookup_io env) st) as [Ht _].
  destruct (pax_segvguard_lookup td vn (lookup_io env) st) as [[p |] st'];
    simpl in *.
  - destruct (HD p eq_refl) as (_ & _ & e & He & Hid).
    rewrite (Hst p eq_refl).
    assert (∀ x, identity x = identity e → identity x ≠ J) as Hx.
    { intros x ->. by rewrite Hid. }
    assert (records_of (store p incr_ncrashes st) J = records_of st J) as Hs.
    { apply records_of_store. intros e' He'. simplify_eq.
      split; by apply Hx. }
    rewrite (deref_store p incr_ncrashes st e He).
    destruct (ncrashes_ge_max _ _); simpl; [| done].
    unfold callout_reset. rewrite records_of_store.
    + by rewrite (records_of_same_table (store p incr_ncrashes st)).
    + intros e'. rewrite (deref_same_table (store p incr_ncrashes st)) by done.
      rewrite (deref_store p incr_ncrashes st e He). intros [= <-].
      split; by apply Hx.
  - pose proof (add_records_of_other td vn (sbinuptime env) (add_malloc env)
                  (add_io env) st' J HJ) as Ha.
    destruct (pax_segvguard_add _ _ _ _ _ st') as [r st'']. simpl in *.
    by rewrite Ha, (records_of_same_table st).
Qed.

Lemma same_config_refl (st : kstate) : same_config st st.
Proof. by repeat split. Qed.

Lemma same_config_trans (st1 st2 st3 : kstate) :
  same_config st1 st2 → same_config st2 st3 → same_config st1 st3.
Proof. unfold same_config. intros (?&?&?&?&?&?) (?&?&?&?&?&?). repeat split; congruence. Qed.

Lemma same_config_store (p : se_ptr) (f : pax_segvguard_entry → pax_segvguard_entry)
    (st : kstate) : same_config st (store p f st).
Proof. repeat split. unfold store. simpl. apply length_alter. Qed.

Lemma same_config_console (st st' : kstate) :
  same_but_console st st' → same_config st st'.
Proof. unfold same_config. intros (Ht&?&?&?&?&?). rewrite Ht. by repeat split. Qed.

Lemma add_same_config (td : thread) (vn : vnode) (sbt : Z) (m : bool)
    (io : vop_results) (st : kstate) :
  same_config st (pax_segvguard_add td vn sbt m io st).2.
Proof.
  unfold pax_segvguard_add. destruct m; [| apply same_config_refl]. simpl.
  destruct (negb (VOP_ISLOCKED io =? LK_EXCLUSIVE) && negb (vn_lock io =? 0));
    [apply same_config_refl |].
  destruct (negb (VOP_GETATTR io =? 0)); simpl.
  - apply same_config_console, same_but_console_printf.
  - eapply same_config_trans; [| apply same_config_store].
    repeat split. simpl. apply length_alter.
Qed.

Lemma segfault_same_config (td : thread) (name : string) (env : crash_env)
    (st : kstate) :
  same_config st (pax_segvguard_segfault td name env st).2.
Proof.
  unfold pax_segvguard_segfault.
  destruct (negb (pax_segvguard_active_td td)); [apply same_config_refl |].
  destruct (p_textvp td) as [vn |]; [| apply same_config_refl].
  pose proof (lookup_same_but_console td vn (lookup_io env) st) as Hl.
  apply same_config_console in Hl.
  destruct (pax_segvguard_lookup td vn (lookup_io env) st) as [[p |] st'];
    simpl in *.
  - eapply same_config_trans; [exact Hl |].
    pose proof (same_config_store p incr_ncrashes st') as Hs.
    destruct (deref _ p); [| done].
    destruct (ncrashes_ge_max _ _); [| done]. simpl.
    eapply same_config_trans; [exact Hs |].
    eapply same_config_trans; [| apply same_config_store].
    apply same_config_console, same_but_console_printf.
  - pose proof (add_same_config td vn (sbinuptime env) (add_malloc env)
                  (add_io env) st') as Ha.
    destruct (pax_segvguard_add _ _ _ _ _ st'). simpl in *.
    by eapply same_config_trans.
Qed.

Lemma deref_callout_reset (p : se_ptr) (to_ticks : Z) (st : kstate)
    (e : pax_segvguard_entry) :
  deref st p = Some e →
  deref (callout_reset p to_ticks st) p
    = Some (mk_entry (se_uid e) (se_inode e) (se_mntpoint e) (se_ncrashes e)
              to_ticks).
Proof. intros He. unfold callout_reset. by rewrite (deref_store p _ st e He). Qed.

(** One crash, every call of which succeeds, in a well-formed table of the
    size [pax_segvguard_sysinit] gives it: afterwards the identity has one
    record; its count is 1 when the identity had no record, and one more
    than before (as a [size_t]) when it had one. *)
Lemma segfault_records_of_self (td : thread) (vn : vnode) (name : string)
    (env : crash_env) (st : kstate) :
  table_inv st →
  length st.(pax_segvguard_hashtbl) = Z.to_nat pax_segvguard_hashsize →
  pax_segvguard_active_td td = true → p_textvp td = Some vn →
  crash_succeeds env →
  ∃ e', records_of (pax_segvguard_segfault td name env st).2 (identity_of td vn)
          = [e']
        ∧ se_ncrashes e' =
            match records_of st (identity_of td vn) with
            | [] => 1
            | e :: _ => to_size_t (se_ncrashes e + 1)
            end.
Proof.
  intros Hinv Hlen Ha Hv (Hdl & Hda & Hm).
  assert (table_inv (pax_segvguard_segfault td name env st).2) as Hinv'.
  { apply segfault_table_inv; [| done]. unfold derivation_stable. congruence. }
  destruct (pax_segvguard_lookup td vn (lookup_io env) st).1 as [p |] eqn:Hl.
  - destruct (lookup_Some_deref td vn _ st p Hl) as (_ & _ & e & He & Hid).
    rewrite (segfault_known_record td vn name env st p e Ha Hv Hl He) in *.
    rewrite <- Hid, (records_of_unique st e Hinv (deref_records st p e He)).
    cbn [snd] in *.
    set (e1 := incr_ncrashes e).
    assert (deref (store p incr_ncrashes st) p = Some e1) as He1
      by by apply deref_store.
    destruct (to_size_t (pax_segvguard_maxcrashes st)
              <=? to_size_t (se_ncrashes e + 1)).
    + exists (mk_entry (se_uid e1) (se_inode e1) (se_mntpoint e1) (se_ncrashes e1)
                (to_int ((pr_hbsd st (pax_get_prison_td td)).(suspension) * hz))).
      split; [| done].
      change (identity e) with (identity (mk_entry (se_uid e1) (se_inode e1)
        (se_mntpoint e1) (se_ncrashes e1)
        (to_int ((pr_hbsd st (pax_get_prison_td td)).(suspension) * hz)))).
      apply records_of_unique; [done |].
      eapply deref_records, deref_callout_reset. exact He1.
    + exists e1. split; [| done].
      change (identity e) with (identity e1).
      apply records_of_unique; [done |]. by eapply deref_records.
  - rewrite (records_of_none st)
      by (by apply (lookup_None_fresh td vn (lookup_io env))).
    unfold pax_segvguard_segfault in *. rewrite Ha, Hv in *. cbn [negb] in *.
    pose proof (lookup_same_but_console td vn (lookup_io env) st) as Hs.
    destruct (pax_segvguard_lookup td vn (lookup_io env) st) as [r st0].
    cbn [fst snd] in *. subst r.
    assert (length (pax_segvguard_hashtbl st0)
            = Z.to_nat pax_segvguard_hashsize) as Hlen0.
    { destruct Hs as [-> _]. done. }
    pose proof (add_Some_record td vn (sbinuptime env) (add_malloc env)
                  (add_io env) st0 (PAX_SEGVGUARD_BUCKET
                     (mk_entry td.(cr_ruid) vn.(va_fileid)
                        (strncpy vn.(f_mntonname) MNAMELEN) 1 0), O) Hlen0) as Hadd.
    rewrite Hm in *. rewrite add_unfold in * by done. cbn [fst snd] in *.
    destruct (Hadd eq_refl) as (e & He & Hc & Hid & _).
    exists e. split; [| done]. rewrite <- Hid.
    apply records_of_unique; [done |]. by eapply deref_records.
Qed.

Lemma bucket_in_table (se : pax_segvguard_entry) :
  (PAX_SEGVGUARD_BUCKET se < Z.to_nat pax_segvguard_hashsize)%nat.
Proof.
  unfold PAX_SEGVGUARD_BUCKET, PAX_SEGVGUARD_HASH.
  apply Z2Nat.inj_lt; [apply Z.mod_pos_bound; done | done |].
  by apply Z.mod_pos_bound.
Qed.

(** X7. Insert and lookup agree on the bucket. In a table of the size
    [pax_segvguard_sysinit] gives it, a record the insert operation created
    is at the head of a bucket inside the table, has crash count 1 and its
    countdown armed for the [int] product of the expiry seconds of the
    thread's prison and [hz] (which wraps around beyond the largest
    [int]), and a lookup for the same thread and vnode that derives the
    identity returns that very record. *)
Theorem lookup_finds_inserted_record (td : thread) (vn : vnode) (sbt : Z)
    (m : bool) (io io' : vop_results) (st : kstate) (p : se_ptr) :
  length st.(pax_segvguard_hashtbl) = Z.to_nat pax_segvguard_hashsize →
  (pax_segvguard_add td vn sbt m io st).1 = Some p →
  derivation_fails io' = false →
  let st' := (pax_segvguard_add td vn sbt m io st).2 in
  (pax_segvguard_lookup td vn io' st').1 = Some p
  ∧ (p.1 < length st.(pax_segvguard_hashtbl))%nat ∧ p.2 = O
  ∧ ∃ e, deref st' p = Some e
         ∧ se_ncrashes e = 1
         ∧ identity e = identity_of td vn
         ∧ se_callout e = to_int ((pr_hbsd st (pax_get_prison_td td)).(expiry) * hz).
Proof.
  intros Hlen Hadd Hd' st'.
  destruct (add_Some_record td vn sbt m io st p Hlen Hadd)
    as (e & He & Hc & Hid & Hco).
  assert (derivation_fails io = false ∧ m = true) as [Hd ->].
  { unfold derivation_fails, pax_segvguard_add in *.
    destruct m; [| done]. simpl in *.
    destruct (negb (VOP_ISLOCKED io =? LK_EXCLUSIVE) && negb (vn_lock io =? 0));
      [done |].
    destruct (negb (VOP_GETATTR io =? 0)); done. }
  subst st'. rewrite add_unfold in * by done. cbn [fst snd] in *.
  injection Hadd as <-. cbn [fst snd].
  split; [| split; [rewrite Hlen; apply bucket_in_table | split; [done | eauto]]].
  rewrite lookup_unfold by done. cbn [fst].
  set (b := PAX_SEGVGUARD_BUCKET _) in *.
  change (PAX_SEGVGUARD_BUCKET
            (mk_entry (cr_ruid td) (va_fileid vn)
               (strncpy (f_mntonname vn) MNAMELEN) 0 0)) with b.
  unfold deref in He. cbn [fst snd] in He.
  destruct (list_find _ _) as [[i e'] |] eqn:Hf.
  - apply list_find_Some in Hf as (_ & _ & Hfirst). f_equal. f_equal.
    destruct i as [| i]; [done |].
    destruct (Hfirst O e He); [lia |].
    apply Is_true_true, lookup_test_identity. by rewrite Hid.
  - apply list_find_None in Hf. rewrite Forall_forall in Hf.
    destruct (Hf e (list_elem_of_lookup_2 _ _ _ He)).
    apply Is_true_true, lookup_test_identity. by rewrite Hid.
Qed.

(** X8. A crash and the check that follows: after one crash every call of
    which succeeds, in a well-formed table, the exec-time check of the same
    identity denies exactly when the global [pax_segvguard_maxcrashes]
    (as a [size_t]) is at most the new count, which is 1 for an identity
    that had no record and the old count plus one otherwise. *)
Theorem check_after_crash (td : thread) (vn : vnode) (name name' : string)
    (env : crash_env) (io : vop_results) (st : kstate) :
  EPERM ≠ 0 → table_inv st →
  length st.(pax_segvguard_hashtbl) = Z.to_nat pax_segvguard_hashsize →
  pax_segvguard_active_td td = true → p_textvp td = Some vn →
  crash_succeeds env → derivation_fails io = false →
  (pax_segvguard_check td (Some vn) name' io
     (pax_segvguard_segfault td name env st).2).1 = EPERM
  ↔ to_size_t st.(pax_segvguard_maxcrashes)
    ≤ match records_of st (identity_of td vn) with
      | [] => 1
      | e :: _ => to_size_t (se_ncrashes e + 1)
      end.
Proof.
  intros HE Hinv Hlen Ha Hv Hok Hd.
  destruct (segfault_records_of_self td vn name env st Hinv Hlen Ha Hv Hok)
    as (e' & Hr & Hc).
  pose proof (segfault_same_config td name env st) as (_ & _ & _ & _ & Hmax & _).
  rewrite check_denies_iff_record; [| done | done | done |].
  - rewrite Hr, Hmax, <- Hc. split.
    + by intros (e & ->%list_elem_of_singleton & Hge).
    + intros Hge. exists e'. split; [apply list_elem_of_here | done].
  - apply segfault_table_inv; [| done].
    destruct Hok as (? & ? & _). unfold derivation_stable. congruence.
Qed.

Lemma crashes_kept (n : nat) (td : thread) (name : string) (env : crash_env)
    (st : kstate) :
  crash_succeeds env → table_inv st →
  table_inv (crashes n td name env st) ∧ same_config st (crashes n td name env st).
Proof.
  intros Hok. revert st. induction n as [| n IH]; intros st Hinv; simpl.
  - split; [done | apply same_config_refl].
  - destruct (IH (pax_segvguard_segfault td name env st).2) as [Hi Hc].
    { apply segfault_table_inv; [| done].
      destruct Hok as (? & ? & _). unfold derivation_stable. congruence. }
    split; [done |].
    eapply same_config_trans; [apply segfault_same_config | done].
Qed.

Lemma crashes_records_of (n : nat) (td : thread) (vn : vnode) (name : string)
    (env : crash_env) (st : kstate) (c : Z) :
  table_inv st →
  length st.(pax_segvguard_hashtbl) = Z.to_nat pax_segvguard_hashsize →
  pax_segvguard_active_td td = true → p_textvp td = Some vn →
  crash_succeeds env →
  c = match records_of st (identity_of td vn) with
      | [] => 0
      | e :: _ => se_ncrashes e
      end →
  0 ≤ c → c + Z.of_nat (S n) < 2 ^ size_t_bits →
  ∃ e, records_of (crashes (S n) td name env st) (identity_of td vn) = [e]
       ∧ se_ncrashes e = c + Z.of_nat (S n).
Proof.
  intros Hinv Hlen Ha Hv Hok. revert st c Hinv Hlen.
  induction n as [| n IH]; intros st c Hinv Hlen Hc H0 Hlt.
  - destruct (segfault_records_of_self td vn name env st Hinv Hlen Ha Hv Hok)
      as (e' & Hr & He'). exists e'. split; [done |].
    rewrite He'. destruct (records_of st (identity_of td vn)) as [| e l].
    + lia.
    + subst c. unfold to_size_t. rewrite Z.mod_small; lia.
  - destruct (segfault_records_of_self td vn name env st Hinv Hlen Ha Hv Hok)
      as (e' & Hr & He').
    change (crashes (S (S n)) td name env st)
      with (crashes (S n) td name env (pax_segvguard_segfault td name env st).2).
    destruct (IH (pax_segvguard_segfault td name env st).2 (c + 1))
      as (e & Hre & Hce).
    + apply segfault_table_inv; [| done].
      destruct Hok as (? & ? & _). unfold derivation_stable. congruence.
    + pose proof (segfault_same_config td name env st) as (_&_&_&_&_& Hl).
      congruence.
    + rewrite Hr, He'. destruct (records_of st (identity_of td vn)) as [| e0 l].
      * lia.
      * subst c. unfold to_size_t. rewrite Z.mod_small; lia.
    + lia.
    + lia.
    + exists e. split; [done |]. lia.
Qed.

(** X9. Crash counting. In a well-formed table that holds no record of an
    identity, [n] crashes of that identity in a row ([n] at least 1, below
    the range of [size_t]), every call of which succeeds, leave one record
    of the identity, with crash count [n]; the exec-time check that follows
    denies exactly when the global [pax_segvguard_maxcrashes] (as a
    [size_t]) is at most [n]. *)
Theorem crashes_count_up (n : nat) (td : thread) (vn : vnode)
    (name name' : string) (env : crash_env) (io : vop_results) (st : kstate) :
  EPERM ≠ 0 → table_inv st →
  length st.(pax_segvguard_hashtbl) = Z.to_nat pax_segvguard_hashsize →
  pax_segvguard_active_td td = true → p_textvp td = Some vn →
  crash_succeeds env → derivation_fails io = false →
  records_of st (identity_of td vn) = [] →
  (0 < n)%nat → Z.of_nat n < 2 ^ size_t_bits →
  (∃ e, records_of (crashes n td name env st) (identity_of td vn) = [e]
        ∧ se_ncrashes e = Z.of_nat n)
  ∧ ((pax_segvguard_check td (Some vn) name' io
        (crashes n td name env st)).1 = EPERM
     ↔ to_size_t st.(pax_segvguard_maxcrashes) ≤ Z.of_nat n).
Proof.
  intros HE Hinv Hlen Ha Hv Hok Hd Hnone Hn Hlt.
  destruct n as [| n]; [lia |].
  destruct (crashes_records_of n td vn name env st 0 Hinv Hlen Ha Hv Hok)
    as (e & Hr & Hc); [by rewrite Hnone | lia | lia |].
  rewrite Z.add_0_l in Hc.
  split; [eauto |].
  destruct (crashes_kept (S n) td name env st Hok Hinv)
    as (Hinv' & _ & _ & _ & _ & Hmax & _).
  rewrite check_denies_iff_record by done.
  rewrite Hr, Hmax, <- Hc. split.
  - by intros (e' & ->%list_elem_of_singleton & Hge).
  - intros Hge. exists e. split; [apply list_elem_of_here | done].
Qed.

(** ** The bucket mutexes *)

Lemma mtx_run_app (held : gset nat) (t1 t2 : list mtx_event) :
  mtx_run held (t1 ++ t2) = mtx_run held t1 ≫= λ held', mtx_run held' t2.
Proof.
  revert held. induction t1 as [| [b | b] t1 IH]; intros held; simpl; [done | |];
    case_decide; by rewrite ?IH.
Qed.

Lemma mtx_run_lock_unlock (b : nat) :
  mtx_run ∅ [mtx_lock b; mtx_unlock b] = Some ∅.
Proof.
  simpl. rewrite decide_False by apply not_elem_of_empty.
  rewrite decide_True by (apply elem_of_union_l; by apply elem_of_singleton).
  by rewrite (right_id_L ∅ (∪)), difference_diag_L.
Qed.

Lemma lookup_mtx_None (td : thread) (vn : vnode) (io : vop_results) (st : kstate) :
  (pax_segvguard_lookup td vn io st).1 = None →
  mtx_run ∅ (pax_segvguard_lookup_mtx td vn io st) = Some ∅.
Proof.
  intros Hl. unfold pax_segvguard_lookup_mtx.
  destruct (derivation_fails io); [done |]. rewrite Hl.
  apply mtx_run_lock_unlock.
Qed.

Lemma lookup_mtx_Some (td : thread) (vn : vnode) (io : vop_results)
    (st : kstate) (p : se_ptr) (e : pax_segvguard_entry) :
  (pax_segvguard_lookup td vn io st).1 = Some p →
  identity e = identity_of td vn →
  mtx_run ∅ (pax_segvguard_lookup_mtx td vn io st
             ++ [mtx_unlock (PAX_SEGVGUARD_BUCKET e)]) = Some ∅.
Proof.
  intros Hl Hid. unfold pax_segvguard_lookup_mtx.
  destruct (lookup_Some_deref td vn io st p Hl) as (-> & _ & _).
  rewrite Hl, (bucket_identity e _ Hid).
  apply mtx_run_lock_unlock.
Qed.

Lemma add_mtx_balanced (td : thread) (vn : vnode) (sbt : Z) (m : bool)
    (io : vop_results) (st : kstate) :
  mtx_run ∅ (pax_segvguard_add_mtx td vn sbt m io st) = Some ∅.
Proof.
  unfold pax_segvguard_add_mtx.
  destruct (pax_segvguard_add td vn sbt m io st).1; [| done].
  apply mtx_run_lock_unlock.
Qed.

(** X16. Whatever the thread, the vnode, the table and the outcomes of the
    VFS calls and of the allocation, both entry points lock only mutexes
    they do not hold, unlock only mutexes they hold, and return with no
    bucket mutex held: the mutex a caller releases through the record found
    is the one the lookup acquired through the key. *)
Theorem entry_points_release_their_mutexes (td : thread) (v : option vnode)
    (name : string) (env : crash_env) (io : vop_results) (st : kstate) :
  mtx_run ∅ (pax_segvguard_segfault_mtx td name env st) = Some ∅
  ∧ mtx_run ∅ (pax_segvguard_check_mtx td v name io st) = Some ∅.
Proof.
  split.
  - unfold pax_segvguard_segfault_mtx.
    destruct (negb (pax_segvguard_active_td td)); [done |].
    destruct (p_textvp td) as [vn |]; [| done].
    pose proof (lookup_mtx_None td vn (lookup_io env) st) as HN.
    pose proof (lookup_mtx_Some td vn (lookup_io env) st) as HS.
    pose proof (lookup_Some_deref td vn (lookup_io env) st) as HD.
    pose proof (lookup_Some_state td vn (lookup_io env) st) as Hst.
    destruct (pax_segvguard_lookup td vn (lookup_io env) st) as [[p |] st'];
      simpl in *.
    + destruct (HD p eq_refl) as (_ & _ & e & He & Hid).
      rewrite (Hst p eq_refl), (deref_store p incr_ncrashes st e He).
      by apply (HS p).
    + rewrite mtx_run_app, HN by done. simpl. apply add_mtx_balanced.
  - unfold pax_segvguard_check_mtx.
    destruct (negb (pax_segvguard_active_td td)); [done |].
    destruct v as [vn |]; [| done].
    pose proof (lookup_mtx_None td vn io st) as HN.
    pose proof (lookup_mtx_Some td vn io st) as HS.
    pose proof (lookup_Some_deref td vn io st) as HD.
    pose proof (lookup_Some_state td vn io st) as Hst.
    destruct (pax_segvguard_lookup td vn io st) as [[p |] st']; simpl in *.
    + destruct (HD p eq_refl) as (_ & _ & e & He & Hid).
      rewrite (Hst p eq_refl), He. by apply (HS p).
    + rewrite app_nil_r. by apply HN.
Qed.

(** ** Expiry *)

Lemma concat_alter_delete_perm {A : Type} (i b : nat) (tbl : list (list A))
    (l : list A) (x : A) :
  tbl !! b = Some l → l !! i = Some x →
  x :: concat (alter (delete i) b tbl) ≡ₚ concat tbl.
Proof.
  revert b. induction tbl as [| l0 tbl IH]; intros [| b] Hb Hi; simpl in *;
    [done.. | |].
  - injection Hb as ->. by rewrite (delete_Permutation l i x Hi) at 2.
  - rewrite Permutation_middle. f_equiv. by apply IH.
Qed.

Lemma check_lookup_None (td : thread) (vn : vnode) (name : string)
    (io : vop_results) (st : kstate) :
  (pax_segvguard_lookup td vn io st).1 = None →
  (pax_segvguard_check td (Some vn) name io st).1 = 0.
Proof.
  intros Hl. unfold pax_segvguard_check.
  destruct (negb (pax_segvguard_active_td td)); [done |].
  destruct (pax_segvguard_lookup td vn io st) as [r st']. simpl in *. by subst r.
Qed.

Lemma check_no_record (td : thread) (vn : vnode) (name : string)
    (io : vop_results) (st : kstate) :
  records_of st (identity_of td vn) = [] →
  (pax_segvguard_check td (Some vn) name io st).1 = 0.
Proof.
  intros Hr. apply check_lookup_None.
  destruct (pax_segvguard_lookup td vn io st).1 as [p |] eqn:Hl; [| done].
  destruct (lookup_Some_deref td vn io st p Hl) as (_ & _ & e & He & Hid).
  assert (e ∈ records_of st (identity_of td vn)) as Hin.
  { unfold records_of. apply list_elem_of_filter. split; [done |].
    by eapply deref_records. }
  rewrite Hr in Hin. by apply elem_of_nil in Hin.
Qed.

(** X11. Expiry forgets one identity. When the countdown of a record fires
    in a well-formed table, the record is unlinked: its identity has no
    record left, the records of every other identity are untouched, and the
    table stays well formed. From then on the exec-time check of that
    identity allows, and its next crash (every call succeeding) starts a
    fresh record with crash count 1. *)
Theorem expiry_starts_afresh (p : se_ptr) (e : pax_segvguard_entry)
    (td : thread) (vn : vnode) (name : string) (env : crash_env)
    (io : vop_results) (st : kstate) :
  table_inv st →
  length st.(pax_segvguard_hashtbl) = Z.to_nat pax_segvguard_hashsize →
  deref st p = Some e → identity_of td vn = identity e →
  pax_segvguard_active_td td = true → p_textvp td = Some vn →
  crash_succeeds env →
  let st' := pax_segvguard_cleaner p st in
  records_of st' (identity e) = []
  ∧ (∀ J, J ≠ identity e → records_of st' J = records_of st J)
  ∧ table_inv st'
  ∧ (pax_segvguard_check td (Some vn) name io st').1 = 0
  ∧ ∃ e1, records_of (pax_segvguard_segfault td name env st').2 (identity e) = [e1]
          ∧ se_ncrashes e1 = 1.
Proof.
  intros Hinv Hlen He Hid Ha Hv Hok st'.
  assert (table_inv st') as Hinv' by by apply table_inv_cleaner.
  assert (records_of st' (identity e) = []) as Hnone.
  { apply records_of_none. subst st'. unfold pax_segvguard_cleaner.
    rewrite He. unfold records. cbn [pax_segvguard_hashtbl set_hashtbl printf].
    destruct Hinv as [_ Hn]. unfold records in Hn.
    unfold deref, bucket in He.
    destruct (pax_segvguard_hashtbl st !! p.1) as [l |] eqn:Hl; [| done].
    simpl in He.
    rewrite <- (concat_alter_delete_perm p.2 p.1 _ l e Hl He) in Hn.
    rewrite fmap_cons in Hn. by apply NoDup_cons in Hn as [? _]. }
  split; [done |]. split; [| split; [done | split]].
  - intros J HJ. subst st'. unfold pax_segvguard_cleaner. rewrite He.
    unfold records_of, records. cbn [pax_segvguard_hashtbl set_hashtbl printf].
    apply filter_concat_alter_delete. intros l x Hl Hx.
    unfold deref, bucket in He. rewrite Hl in He. simpl in He.
    rewrite Hx in He. injection He as ->. done.
  - apply check_no_record. by rewrite Hid.
  - assert (length (pax_segvguard_hashtbl st')
            = Z.to_nat pax_segvguard_hashsize) as Hlen'.
    { subst st'. unfold pax_segvguard_cleaner. rewrite He.
      cbn [pax_segvguard_hashtbl set_hashtbl printf].
      by rewrite length_alter. }
    destruct (segfault_records_of_self td vn name env st' Hinv' Hlen' Ha Hv Hok)
      as (e1 & Hr & Hc).
    rewrite Hid, Hnone in *. eauto.
Qed.

(** ** Initialisation *)

Lemma concat_replicate_nil {A : Type} (n : nat) :
  concat (replicate n (@nil A)) = [].
Proof. induction n; simpl; done. Qed.

(** X12. After [pax_segvguard_sysinit] the table has
    [pax_segvguard_hashsize] buckets and no record, whatever it held
    before, and the exec-time check of any available image allows. *)
Theorem sysinit_table_is_empty (bootverbose : bool) (td : thread) (vn : vnode)
    (name : string) (io : vop_results) (st : kstate) :
  let st' := pax_segvguard_sysinit bootverbose st in
  length st'.(pax_segvguard_hashtbl) = Z.to_nat pax_segvguard_hashsize
  ∧ records st' = []
  ∧ (pax_segvguard_check td (Some vn) name io st').1 = 0.
Proof.
  intros st'.
  assert (records st' = []) as Hr.
  { subst st'. unfold pax_segvguard_sysinit, records.
    cbn [pax_segvguard_hashtbl set_hashtbl]. apply concat_replicate_nil. }
  split; [| split; [done |]].
  - subst st'. unfold pax_segvguard_sysinit.
    cbn [pax_segvguard_hashtbl set_hashtbl]. apply length_replicate.
  - apply check_no_record. unfold records_of. by rewrite Hr.
Qed.

(** ** The resolver and the entry points *)

Lemma setup_flags_on_or_off (st : kstate) (imgp : image_params) (td : thread)
    (mode ret : Z) :
  pax_segvguard_setup_flags st imgp td mode ret = flags_guard_on 0
  ∨ pax_segvguard_setup_flags st imgp td mode ret = flags_guard_off 0.
Proof. unfold pax_segvguard_setup_flags. repeat case_match; auto. Qed.

Lemma active_td_guard_active (td : thread) :
  pax_segvguard_active_td (with_pax guard_active td) = true.
Proof.
  unfold pax_segvguard_active_td, with_pax, pax_get_flags_td, guard_active.
  simpl. by rewrite Z.land_diag, Z.eqb_refl.
Qed.

Lemma active_td_guard_inactive (td : thread) :
  bits_exclusive → PAX_NOTE_SEGVGUARD ≠ 0 →
  pax_segvguard_active_td (with_pax guard_inactive td) = false.
Proof.
  unfold bits_exclusive. intros Hex Hnz.
  unfold pax_segvguard_active_td, with_pax, pax_get_flags_td, guard_inactive.
  simpl. rewrite Z.land_comm, Hex, Z.land_diag, Z.eqb_refl.
  destruct (Z.eqb_spec 0 PAX_NOTE_SEGVGUARD); [congruence | done].
Qed.

(** X13. What the resolver writes, the entry points read back. The flag
    word the resolver returns is always exactly guard-active or exactly
    guard-inactive, never both bits and never neither; and
    [pax_segvguard_active_td] answers true for a thread set up with it
    exactly when it is guard-active. *)
Theorem setup_flags_read_back (st : kstate) (imgp : image_params) (td : thread)
    (mode ret : Z) :
  bits_exclusive → PAX_NOTE_SEGVGUARD ≠ 0 →
  let flags := pax_segvguard_setup_flags st imgp td mode ret in
  (flags = guard_active ∨ flags = guard_inactive)
  ∧ guard_active ≠ guard_inactive
  ∧ pax_segvguard_active_td (exec_setup st imgp td mode ret)
    = bool_decide (flags = guard_active).
Proof.
  intros Hex Hnz flags.
  assert (guard_active ≠ guard_inactive) as Hne.
  { unfold guard_active, guard_inactive, bits_exclusive in *. intros Heq.
    rewrite <- Heq, Z.land_diag in Hex. done. }
  unfold exec_setup. fold flags.
  destruct (setup_flags_on_or_off st imgp td mode ret) as [Hf | Hf];
    fold flags in Hf; rewrite Hf.
  - rewrite (flags_guard_on_0 Hex). split; [by left |]. split; [done |].
    by rewrite active_td_guard_active, bool_decide_eq_true_2.
  - rewrite flags_guard_off_0. split; [by right |]. split; [done |].
    rewrite active_td_guard_inactive by done.
    by rewrite bool_decide_eq_false_2.
Qed.

(** X14. In a scope whose mode is disabled nothing is guarded: for a thread
    set up by the resolver there, whatever the binary and its override
    word, crash recording and the exec-time check return 0 and leave the
    whole state as it is, whatever the table holds. *)
Theorem disabled_scope_is_never_guarded (st0 : kstate) (imgp : image_params)
    (td : thread) (mode ret : Z) (v : option vnode) (name : string)
    (env : crash_env) (io : vop_results) (st : kstate) :
  bits_exclusive → PAX_NOTE_SEGVGUARD ≠ 0 →
  scope_mode st0 td = PAX_FEATURE_DISABLED →
  pax_segvguard_segfault (exec_setup st0 imgp td mode ret) name env st = (0, st)
  ∧ pax_segvguard_check (exec_setup st0 imgp td mode ret) v name io st = (0, st).
Proof.
  intros Hex Hnz Hs.
  assert (pax_segvguard_active_td (exec_setup st0 imgp td mode ret) = false) as Ha.
  { unfold exec_setup, pax_segvguard_setup_flags. unfold scope_mode in Hs.
    rewrite Hs, Z.eqb_refl, flags_guard_off_0.
    by apply active_td_guard_inactive. }
  unfold pax_segvguard_segfault, pax_segvguard_check. by rewrite Ha.
Qed.

(** X20. In a scope whose mode is forced the guard is always evaluated: a
    thread set up by the resolver there is guard-active whatever the binary
    and its override word say, so crash recording and the exec-time check
    do for it what they do for a thread that holds the guard-active bit
    alone. *)
Theorem forced_scope_is_always_guarded (st0 : kstate) (imgp : image_params)
    (td : thread) (mode ret : Z) :
  modes_distinct → bits_exclusive →
  scope_mode st0 td = PAX_FEATURE_FORCE_ENABLED →
  pax_segvguard_active_td (exec_setup st0 imgp td mode ret) = true
  ∧ (∀ name env st,
       pax_segvguard_segfault (exec_setup st0 imgp td mode ret) name env st
       = pax_segvguard_segfault (with_pax guard_active td) name env st)
  ∧ (∀ v name io st,
       pax_segvguard_check (exec_setup st0 imgp td mode ret) v name io st
       = pax_segvguard_check (with_pax guard_active td) v name io st).
Proof.
  intros Hm Hex Hs.
  pose proof Hm as [(_ & _ & _ & Hr) (_ & _ & Hne & _)]%modes_distinct_elim.
  assert (exec_setup st0 imgp td mode ret = with_pax guard_active td) as ->.
  { unfold exec_setup. rewrite setup_flags_unfold by (by rewrite ?Hs).
    rewrite Hs, bool_decide_eq_false_2 by done.
    by rewrite bool_decide_eq_true_2, (flags_guard_on_0 Hex). }
  split; [apply active_td_guard_active | done].
Qed.

(** X15. Crash recording never denies anything: it returns the no-target
    error EFAULT exactly when the guard is active and the process has no
    text vnode, and 0 in every other case, also when the lookup or the
    insertion fails; when the guard is inactive or the text vnode is
    missing it leaves the state as it is. *)
Theorem segfault_outcome (td : thread) (name : string) (env : crash_env)
    (st : kstate) :
  (pax_segvguard_segfault td name env st).1
    = (if pax_segvguard_active_td td && bool_decide (p_textvp td = None)
       then EFAULT else 0)
  ∧ (pax_segvguard_active_td td && bool_decide (is_Some (p_textvp td)) = false →
     (pax_segvguard_segfault td name env st).2 = st).
Proof.
  unfold pax_segvguard_segfault.
  destruct (pax_segvguard_active_td td); simpl; [| done].
  destruct (p_textvp td) as [vn |]; simpl.
  - split; [| done].
    destruct (pax_segvguard_lookup td vn (lookup_io env) st) as [[p |] st'].
    + by repeat case_match.
    + by destruct (pax_segvguard_add _ _ _ _ _ st').
  - done.
Qed.

(** ** The sysctl handlers and the prisons *)

Lemma pr_hbsd_set_cfg (f : hbsd_segvguard → hbsd_segvguard) (pr q : nat)
    (st : kstate) :
  pr_hbsd (set_cfg f pr st) q =
    if decide (pr = q)
    then match prisons st !! pr with
         | Some p => f p.(pr_hbsd_segvguard)
         | None => zero_cfg
         end
    else pr_hbsd st q.
Proof.
  unfold pr_hbsd, set_cfg. simpl. rewrite lookup_alter.
  case_decide as Hq; [| done]. subst q.
  by destruct (prisons st !! pr).
Qed.

Lemma set_cfg_other (f : hbsd_segvguard → hbsd_segvguard) (pr q : nat)
    (st : kstate) :
  q ≠ pr → prisons (set_cfg f pr st) !! q = prisons st !! q.
Proof. intros Hq. unfold set_cfg. simpl. by rewrite lookup_alter_ne. Qed.

Lemma set_cfg_status (f : hbsd_segvguard → hbsd_segvguard) (pr : nat)
    (st : kstate) :
  (∀ c, status (f c) = status c) →
  status (pr_hbsd (set_cfg f pr st) pr) = status (pr_hbsd st pr).
Proof.
  intros Hf. rewrite pr_hbsd_set_cfg, decide_True by done. unfold pr_hbsd.
  by destruct (prisons st !! pr).
Qed.

Lemma in_scope_refl (pr : nat) (st : kstate) : in_scope pr st st.
Proof. by repeat split. Qed.

Lemma in_scope_write (gset : kstate → kstate) (f : hbsd_segvguard → hbsd_segvguard)
    (pr : nat) (st : kstate) :
  (∀ s, prisons (gset s) = prisons s
        ∧ pax_segvguard_hashtbl (gset s) = pax_segvguard_hashtbl s
        ∧ console (gset s) = console s
        ∧ pax_segvguard_status (gset s) = pax_segvguard_status s) →
  (∀ c, status (f c) = status c) →
  in_scope pr st
    (set_cfg f pr (if decide (pr = prison0) then gset st else st)).
Proof.
  intros Hg Hf. destruct (Hg st) as (Hp & Ht & Hc & Hs).
  assert (∀ q, pr_hbsd (gset st) q = pr_hbsd st q) as Hpr.
  { intros q. unfold pr_hbsd. by rewrite Hp. }
  unfold in_scope. split; [| split; [| split; [| split; [| split]]]].
  - intros q Hq. rewrite set_cfg_other by done.
    case_decide; [by rewrite Hp | done].
  - rewrite set_cfg_status by done. case_decide; [by rewrite Hpr | done].
  - unfold set_cfg. simpl. by case_decide.
  - unfold set_cfg. simpl. by case_decide.
  - unfold set_cfg. simpl. by case_decide.
  - intros Hne. by rewrite decide_False by done.
Qed.

(** X1. The three sysctl handlers stay in the scope of the thread that
    makes the request: none of them changes another prison, the status of
    the thread's prison, the table or the console, and a request from a
    jail changes no global. *)
Theorem sysctl_handlers_stay_in_scope :
  stays_in_scope sysctl_pax_segvguard_expiry
  ∧ stays_in_scope sysctl_pax_segvguard_suspension
  ∧ stays_in_scope sysctl_pax_segvguard_maxcrashes.
Proof.
  unfold stays_in_scope, sysctl_pax_segvguard_expiry,
    sysctl_pax_segvguard_suspension, sysctl_pax_segvguard_maxcrashes.
  split; [| split]; intros req st;
    destruct (sysctl_handle_int req _) as [err val];
    destruct (negb (err =? 0) || bool_decide (newptr req = None));
    cbn [snd]; try apply in_scope_refl.
  - by apply (in_scope_write (set_expiry val)).
  - by apply (in_scope_write (set_suspension val)).
  - by apply (in_scope_write (set_maxcrashes val)).
Qed.

Lemma write_stored (gset : kstate → kstate) (f : hbsd_segvguard → hbsd_segvguard)
    (pr : nat) (st : kstate) :
  is_Some (prisons st !! pr) → prisons (gset st) = prisons st →
  pr_hbsd (set_cfg f pr (if decide (pr = prison0) then gset st else st)) pr
    = f (pr_hbsd st pr).
Proof.
  intros [p Hp] Hg. rewrite pr_hbsd_set_cfg, decide_True by done.
  unfold pr_hbsd. case_decide; by rewrite ?Hg, Hp.
Qed.

(** X2. A successful write is stored: after a sysctl request that carries a
    new value and that [sysctl_handle_int] accepts, the setting of the
    thread's prison is the value [sysctl_handle_int] delivered, the other
    settings of the prison are unchanged, and when the thread is in the
    root prison the global holds the value too. No value is refused. *)
Theorem sysctl_write_is_stored (req : sysctl_req) (st : kstate) :
  is_Some (prisons st !! pax_get_prison_td req.(req_td)) →
  is_Some req.(newptr) →
  (∀ old, (req.(sysctl_handle_int) old).1 = 0) →
  let pr := pax_get_prison_td req.(req_td) in
  let c := pr_hbsd st pr in
  (let val := (req.(sysctl_handle_int) c.(expiry)).2 in
   let st' := (sysctl_pax_segvguard_expiry req st).2 in
   pr_hbsd st' pr = mk_cfg c.(status) val c.(suspension) c.(maxcrashes)
   ∧ (pr = prison0 → pax_segvguard_expiry st' = val))
  ∧ (let val := (req.(sysctl_handle_int) c.(suspension)).2 in
     let st' := (sysctl_pax_segvguard_suspension req st).2 in
     pr_hbsd st' pr = mk_cfg c.(status) c.(expiry) val c.(maxcrashes)
     ∧ (pr = prison0 → pax_segvguard_suspension st' = val))
  ∧ (let val := (req.(sysctl_handle_int) c.(maxcrashes)).2 in
     let st' := (sysctl_pax_segvguard_maxcrashes req st).2 in
     pr_hbsd st' pr = mk_cfg c.(status) c.(expiry) c.(suspension) val
     ∧ (pr = prison0 → pax_segvguard_maxcrashes st' = val)).
Proof.
  intros Hp [n Hn] Herr pr c.
  assert (bool_decide (newptr req = None) = false) as Hnp
    by by rewrite Hn, bool_decide_eq_false_2.
  unfold sysctl_pax_segvguard_expiry, sysctl_pax_segvguard_suspension,
    sysctl_pax_segvguard_maxcrashes. fold pr. fold c.
  split; [| split].
  - pose proof (Herr (expiry c)) as He.
    destruct (sysctl_handle_int req (expiry c)) as [err val].
    cbn [fst snd] in *. subst err. rewrite Hnp. cbn [negb orb Z.eqb snd]. split.
    + by rewrite (write_stored (set_expiry val)).
    + intros ->. by rewrite decide_True.
  - pose proof (Herr (suspension c)) as He.
    destruct (sysctl_handle_int req (suspension c)) as [err val].
    cbn [fst snd] in *. subst err. rewrite Hnp. cbn [negb orb Z.eqb snd]. split.
    + by rewrite (write_stored (set_suspension val)).
    + intros ->. by rewrite decide_True.
  - pose proof (Herr (maxcrashes c)) as He.
    destruct (sysctl_handle_int req (maxcrashes c)) as [err val].
    cbn [fst snd] in *. subst err. rewrite Hnp. cbn [negb orb Z.eqb snd]. split.
    + by rewrite (write_stored (set_maxcrashes val)).
    + intros ->. by rewrite decide_True.
Qed.


(** ** The root prison and the globals *)

Lemma root_synced_same (st st' : kstate) :
  prisons st' = prisons st →
  pax_segvguard_expiry st' = pax_segvguard_expiry st →
  pax_segvguard_suspension st' = pax_segvguard_suspension st →
  pax_segvguard_maxcrashes st' = pax_segvguard_maxcrashes st →
  root_synced st → root_synced st'.
Proof. unfold root_synced, pr_hbsd. by intros -> -> -> ->. Qed.

Lemma root_synced_config (st st' : kstate) :
  same_config st st' → root_synced st → root_synced st'.
Proof. intros (?&?&?&?&?&?). by apply root_synced_same. Qed.

Lemma root_synced_jail (f : hbsd_segvguard → hbsd_segvguard) (q : nat)
    (st : kstate) :
  q ≠ prison0 → root_synced st → root_synced (set_cfg f q st).
Proof.
  intros Hq. unfold root_synced. rewrite !pr_hbsd_set_cfg.
  by rewrite decide_False by done.
Qed.

(** X3. The settings of the root prison mirror the globals:
    [pax_segvguard_init_prison] of the root prison makes its expiry,
    suspension and maxcrashes equal to the globals, and every later step of
    the file keeps them equal: the three sysctl handlers from any prison,
    the initialisation of any prison, [pax_segvguard_sysinit], crashes,
    checks and countdowns that fire. *)
Theorem root_prison_mirrors_globals (st : kstate) :
  (∀ st', pax_segvguard_init_prison prison0 st = Some st' → root_synced st')
  ∧ (root_synced st → is_Some (prisons st !! prison0) →
     (∀ req, root_synced (sysctl_pax_segvguard_expiry req st).2
             ∧ root_synced (sysctl_pax_segvguard_suspension req st).2
             ∧ root_synced (sysctl_pax_segvguard_maxcrashes req st).2)
     ∧ (∀ pr st', pax_segvguard_init_prison pr st = Some st' → root_synced st')
     ∧ (∀ bootverbose, root_synced (pax_segvguard_sysinit bootverbose st))
     ∧ (∀ td name env, root_synced (pax_segvguard_segfault td name env st).2)
     ∧ (∀ td v name io, root_synced (pax_segvguard_check td v name io st).2)
     ∧ (∀ p, root_synced (pax_segvguard_cleaner p st))).
Proof.
  assert (∀ s s', pax_segvguard_init_prison prison0 s = Some s' → root_synced s')
    as Hinit0.
  { intros s s'. unfold pax_segvguard_init_prison.
    destruct (prisons s !! prison0) as [p |]; [| done].
    rewrite decide_True by done. intros [= <-].
    unfold root_synced, pr_hbsd. simpl. by rewrite lookup_insert_eq. }
  split; [apply Hinit0 |].
  intros Hs [p0 Hp0].
  split; [| split; [| split; [| split; [| split]]]].
  - intros req.
    unfold sysctl_pax_segvguard_expiry, sysctl_pax_segvguard_suspension,
      sysctl_pax_segvguard_maxcrashes.
    set (pr := pax_get_prison_td (req_td req)).
    split; [| split];
      destruct (sysctl_handle_int req _) as [err val];
      destruct (negb (err =? 0) || bool_decide (newptr req = None));
      cbn [snd]; try done;
      (case_decide as Hpr;
       [ rewrite Hpr; unfold root_synced in *; rewrite !pr_hbsd_set_cfg;
         rewrite !decide_True by done; simpl; rewrite Hp0; simpl;
         unfold pr_hbsd in Hs; rewrite Hp0 in Hs; simpl in Hs;
         destruct Hs as (? & ? & ?); done
       | by apply root_synced_jail ]).
  - intros pr st'. destruct (decide (pr = prison0)) as [-> | Hpr];
      [apply Hinit0 |].
    unfold pax_segvguard_init_prison.
    destruct (prisons st !! pr) as [p |]; [| done].
    rewrite decide_False by done.
    destruct (pr_parent p) as [pp |]; [| done].
    destruct (prisons st !! pp) as [ppr |]; [| done]. intros [= <-].
    unfold root_synced, pr_hbsd in *. simpl.
    by rewrite lookup_insert_ne.
  - intros bv. revert Hs. apply root_synced_same;
      unfold pax_segvguard_sysinit; by repeat case_match.
  - intros td name env. revert Hs.
    apply root_synced_config, segfault_same_config.
  - intros td v name io. revert Hs.
    pose proof (check_same_but_console td v name io st) as (?&?&?&?&?&?).
    by apply root_synced_same.
  - intros p. revert Hs. apply root_synced_same;
      unfold pax_segvguard_cleaner; by case_match.
Qed.

(** X4. For a thread of the root prison whose settings mirror the globals,
    the exec-time check does compare with the threshold of the thread's own
    scope: with a well-formed table and an identity that derives, it denies
    exactly when the table holds a record of the identity whose crash count
    is at or above the scope's maxcrashes, read as a [size_t]. *)
Theorem root_scope_check_uses_scope_threshold (td : thread) (vn : vnode)
    (name : string) (io : vop_results) (st : kstate) :
  EPERM ≠ 0 → root_synced st → pax_get_prison_td td = prison0 →
  pax_segvguard_active_td td = true →
  derivation_fails io = false → table_inv st →
  (pax_segvguard_check td (Some vn) name io st).1 = EPERM
  ↔ ∃ e, e ∈ records_of st (identity_of td vn)
         ∧ to_size_t (pr_hbsd st (pax_get_prison_td td)).(maxcrashes)
           ≤ e.(se_ncrashes).
Proof.
  intros HE (_ & _ & Hmax) -> Ha Hd Hinv. rewrite Hmax.
  by apply check_denies_iff_record.
Qed.

(** X5. For a thread of the root prison whose settings mirror the globals,
    a crash of an identity that has a record raises the count by one and,
    exactly when the new count reaches the scope's maxcrashes (as a
    [size_t]), arms the countdown again for the [int] product of the
    scope's suspension seconds and [hz] (which wraps around beyond the
    largest [int]) and prints the suspension with those seconds and the new
    count; otherwise the countdown and the console are left alone. *)
Theorem root_scope_crash_uses_scope_settings (td : thread) (vn : vnode)
    (name : string) (env : crash_env) (st : kstate) (p : se_ptr)
    (e : pax_segvguard_entry) :
  root_synced st → pax_get_prison_td td = prison0 →
  pax_segvguard_active_td td = true → p_textvp td = Some vn →
  (pax_segvguard_lookup td vn (lookup_io env) st).1 = Some p →
  deref st p = Some e →
  let scope := pr_hbsd st (pax_get_prison_td td) in
  let st' := (pax_segvguard_segfault td name env st).2 in
  let n := to_size_t (e.(se_ncrashes) + 1) in
  let reached := to_size_t scope.(maxcrashes) <=? n in
  deref st' p
    = Some (mk_entry e.(se_uid) e.(se_inode) e.(se_mntpoint) n
              (if reached then to_int (scope.(suspension) * hz) else e.(se_callout)))
  ∧ console st'
    = console st
      ++ (if reached then [LogSuspending name td.(p_pid) scope.(suspension) n]
          else []).
Proof.
  intros (_ & Hsusp & Hmax) Hpr Ha Hv Hl He scope st' n reached.
  subst st' reached scope n.
  rewrite (segfault_known_record td vn name env st p e Ha Hv Hl He).
  rewrite Hpr in *. rewrite Hmax, Hsusp. cbn [snd].
  pose proof (deref_store p incr_ncrashes st e He) as He1.
  destruct (to_size_t (pax_segvguard_maxcrashes st)
            <=? to_size_t (se_ncrashes e + 1)).
  - split.
    + match goal with
      | |- deref (callout_reset p ?t ?s) p = _ =>
          rewrite (deref_callout_reset p t s (incr_ncrashes e)) by exact He1
      end.
      reflexivity.
    + reflexivity.
  - split; [by rewrite He1 | by rewrite app_nil_r].
Qed.

Lemma sysctl_other_prison (req : sysctl_req) (st : kstate) (q : nat) :
  q ≠ pax_get_prison_td req.(req_td) →
  pr_hbsd (sysctl_pax_segvguard_expiry req st).2 q = pr_hbsd st q
  ∧ pr_hbsd (sysctl_pax_segvguard_suspension req st).2 q = pr_hbsd st q
  ∧ pr_hbsd (sysctl_pax_segvguard_maxcrashes req st).2 q = pr_hbsd st q.
Proof.
  intros Hq.
  unfold sysctl_pax_segvguard_expiry, sysctl_pax_segvguard_suspension,
    sysctl_pax_segvguard_maxcrashes.
  split; [| split];
    destruct (sysctl_handle_int req _) as [err val];
    destruct (negb (err =? 0) || bool_decide (newptr req = None));
    cbn [snd]; try done;
    rewrite pr_hbsd_set_cfg, decide_False by done; by case_decide.
Qed.

(** X6. A jail is initialised with a copy of its parent's settings. For a
    prison other than the root whose parent exists,
    [pax_segvguard_init_prison] makes the prison's four settings the
    parent's and changes nothing else: not its parent link, not another
    prison, not the globals, the table or the console. The copy is by
    value: a later sysctl write from any other prison, the parent included,
    does not reach it. *)
Theorem init_prison_copies_parent (pr pp : nat) (p : prison) (st : kstate) :
  pr ≠ prison0 → prisons st !! pr = Some p → pr_parent p = Some pp →
  is_Some (prisons st !! pp) →
  ∃ st', pax_segvguard_init_prison pr st = Some st'
         ∧ prisons st' !! pr = Some (mk_prison (Some pp) (pr_hbsd st pp))
         ∧ (∀ q, q ≠ pr → prisons st' !! q = prisons st !! q)
         ∧ pax_segvguard_status st' = pax_segvguard_status st
         ∧ pax_segvguard_expiry st' = pax_segvguard_expiry st
         ∧ pax_segvguard_suspension st' = pax_segvguard_suspension st
         ∧ pax_segvguard_maxcrashes st' = pax_segvguard_maxcrashes st
         ∧ pax_segvguard_hashtbl st' = pax_segvguard_hashtbl st
         ∧ console st' = console st
         ∧ ∀ req, pax_get_prison_td req.(req_td) ≠ pr →
             pr_hbsd (sysctl_pax_segvguard_expiry req st').2 pr = pr_hbsd st pp
             ∧ pr_hbsd (sysctl_pax_segvguard_suspension req st').2 pr
               = pr_hbsd st pp
             ∧ pr_hbsd (sysctl_pax_segvguard_maxcrashes req st').2 pr
               = pr_hbsd st pp.
Proof.
  intros Hpr Hp Hpp [ppr Hppr]. unfold pax_segvguard_init_prison.
  rewrite Hp, decide_False, Hpp, Hppr by done.
  assert (pr_hbsd st pp = mk_cfg (status (pr_hbsd_segvguard ppr))
            (expiry (pr_hbsd_segvguard ppr))
            (suspension (pr_hbsd_segvguard ppr))
            (maxcrashes (pr_hbsd_segvguard ppr))) as Hcfg.
  { unfold pr_hbsd. rewrite Hppr. by destruct (pr_hbsd_segvguard ppr). }
  rewrite <- Hcfg.
  set (st' := set_prisons _ st).
  assert (prisons st' !! pr = Some (mk_prison (Some pp) (pr_hbsd st pp))) as Hnew.
  { subst st'. simpl. by rewrite lookup_insert_eq. }
  exists st'. split; [done |]. split; [exact Hnew |].
  split; [intros q Hq; subst st'; simpl; by rewrite lookup_insert_ne |].
  do 6 (split; [done |]).
  intros req Hreq.
  destruct (sysctl_other_prison req st' pr) as (-> & -> & ->); [done |].
  unfold pr_hbsd at 1 3 5. by rewrite Hnew.
Qed.

(** ** Edge values of the threshold *)

(** X17. A negative threshold switches denial off. The sysctl handler
    stores any [int]; the comparison with the crash count is made on
    [size_t], where a negative [pax_segvguard_maxcrashes] is a number
    above every count a record can reach in practice: with a [size_t] of at
    least 32 bits, a negative threshold and counts below
    [2 ^ size_t_bits - 2 ^ 31], the exec-time check of an available image
    allows whatever the table holds. *)
Theorem negative_threshold_never_denies (td : thread) (vn : vnode)
    (name : string) (io : vop_results) (st : kstate) :
  32 ≤ size_t_bits →
  - 2 ^ 31 ≤ st.(pax_segvguard_maxcrashes) < 0 →
  (∀ e, e ∈ records st → se_ncrashes e < 2 ^ size_t_bits - 2 ^ 31) →
  (pax_segvguard_check td (Some vn) name io st).1 = 0.
Proof.
  intros Hbits Hneg Hcount.
  assert (2 ^ 32 ≤ 2 ^ size_t_bits) as Hpow
    by (apply Z.pow_le_mono_r; lia).
  change (2 ^ 31) with 2147483648 in *. change (2 ^ 32) with 4294967296 in *.
  unfold pax_segvguard_check.
  destruct (negb (pax_segvguard_active_td td)); [done |].
  pose proof (lookup_same_but_console td vn io st) as (Ht & _ & _ & _ & _ & Hmax).
  destruct (pax_segvguard_lookup td vn io st) as [[p |] st']; [| done].
  cbn [fst snd] in *. rewrite (deref_same_table st st' p Ht).
  destruct (deref st p) as [e |] eqn:He; [| done].
  unfold ncrashes_ge_max, to_size_t. rewrite Hmax.
  pose proof (Hcount e (deref_records st p e He)) as Hc.
  rewrite <- (Z_mod_plus_full _ 1).
  rewrite Z.mod_small by lia.
  destruct (Z.leb_spec (pax_segvguard_maxcrashes st + 1 * 2 ^ size_t_bits)
              (se_ncrashes e)); [lia | done].
Qed.

(** ** The table as a whole *)


(** ** The console *)

(** X19. A denial is printed, an allow is silent: when the identity
    derives, the exec-time check adds to the console exactly the
    "Preventing execution" line, with the name given and the pid of the
    thread, when it returns EPERM, and nothing when it returns 0. *)
Theorem check_prints_denials_only (td : thread) (vn : vnode) (name : string)
    (io : vop_results) (st : kstate) :
  EPERM ≠ 0 → derivation_fails io = false →
  console (pax_segvguard_check td (Some vn) name io st).2
    = console st
      ++ (if bool_decide ((pax_segvguard_check td (Some vn) name io st).1 = EPERM)
          then [LogPreventing name td.(p_pid)] else []).
Proof.
  intros HE Hd. unfold pax_segvguard_check.
  destruct (negb (pax_segvguard_active_td td)).
  { cbn [fst snd]. rewrite bool_decide_eq_false_2 by done. by rewrite app_nil_r. }
  rewrite lookup_unfold by done. cbv zeta.
  destruct (list_find _ _) as [[i e'] |].
  - destruct (deref st _) as [e |].
    + destruct (ncrashes_ge_max e st); cbn [fst snd].
      * by rewrite bool_decide_eq_true_2.
      * rewrite bool_decide_eq_false_2 by done. by rewrite app_nil_r.
    + cbn [fst snd]. rewrite bool_decide_eq_false_2 by done. by rewrite app_nil_r.
  - cbn [fst snd]. rewrite bool_decide_eq_false_2 by done. by rewrite app_nil_r.
Qed.

End behaviour.

(** * The behaviour on the concrete run *)

Module BehaviourFacts.
Import Run Scenario.

#[local] Existing Instance hbsd_amd64.

Lemma hbsd_EPERM : EPERM ≠ 0.
Proof. discriminate. Qed.

Lemma hbsd_SEGVGUARD : PAX_NOTE_SEGVGUARD ≠ 0.
Proof. discriminate. Qed.

Lemma booted_inv : table_inv booted.
Proof.
  apply (table_inv_same_table (pax_segvguard_sysinit false boot));
    [vm_compute; reflexivity | apply sysinit_table_inv].
Qed.

Lemma booted_length :
  length booted.(pax_segvguard_hashtbl) = Z.to_nat pax_segvguard_hashsize.
Proof. vm_compute. reflexivity. Qed.

Lemma env_ok_succeeds : crash_succeeds env_ok.
Proof. repeat split. Qed.

Lemma host_crashed1_inv : table_inv host_crashed1.
Proof.
  unfold host_crashed1, crash. apply segfault_table_inv; [done |].
  apply booted_inv.
Qed.

Lemma host_crashed1_length :
  length host_crashed1.(pax_segvguard_hashtbl) = Z.to_nat pax_segvguard_hashsize.
Proof. vm_compute. reflexivity. Qed.

Lemma host_crashed1_victim : deref host_crashed1 victim_ptr = Some victim_record.
Proof. vm_compute. reflexivity. Qed.

(** The jail's [max_crashes] request is stored in the jail. *)
Lemma sysctl_write_is_stored_witness :
  pr_hbsd jail_max2 1 = mk_cfg PAX_FEATURE_OPTIN 120 600 2.
Proof.
  assert (is_Some (prisons booted !! pax_get_prison_td (req_td req_max2))) as H1.
  { vm_compute. eauto. }
  assert (is_Some (newptr req_max2)) as H2 by (vm_compute; eauto).
  destruct (sysctl_write_is_stored req_max2 booted H1 H2 (λ _, eq_refl))
    as (_ & _ & Hm & _).
  exact Hm.
Defined.

(** The root prison keeps mirroring the globals through a write from the
    host. *)
Lemma root_prison_mirrors_globals_witness :
  root_synced booted ∧ root_synced host_negative.
Proof.
  assert (root_synced host_crashed1) as Hs by (vm_compute; repeat split).
  assert (is_Some (prisons host_crashed1 !! prison0)) as Hp
    by (vm_compute; eauto).
  split; [vm_compute; repeat split |].
  destruct (root_prison_mirrors_globals host_crashed1) as [_ Hkeep].
  destruct (Hkeep Hs Hp) as (Hsys & _).
  apply (Hsys req_negative).
Defined.

(** On the host the check compares with the threshold of the root prison. *)
Lemma root_scope_check_uses_scope_threshold_witness :
  (pax_segvguard_check (td_in prison0) (Some victim) "victim" io_ok
     host_crashed1).1 = EPERM
  ↔ ∃ e, e ∈ records_of host_crashed1 (identity_of (td_in prison0) victim)
         ∧ to_size_t (pr_hbsd host_crashed1
                        (pax_get_prison_td (td_in prison0))).(maxcrashes)
           ≤ e.(se_ncrashes).
Proof.
  apply (root_scope_check_uses_scope_threshold (td_in prison0) victim "victim"
           io_ok host_crashed1 hbsd_EPERM);
    [vm_compute; repeat split | reflexivity | reflexivity | reflexivity
    | apply host_crashed1_inv].
Defined.

(** The second crash of the victim on the host, where the threshold is now
    2 and the suspension 2147484 seconds: the count reaches the threshold,
    the suspension is printed with those seconds, and the countdown is
    armed for the [int] that 2147484 * 1000 wraps around to. *)
Lemma root_scope_crash_uses_scope_settings_witness :
  deref (crash (td_in prison0) env_ok host_long_suspension) victim_ptr
    = Some (mk_entry 1001 4242 (strncpy [47] MNAMELEN) 2 (-2147483296))
  ∧ console (crash (td_in prison0) env_ok host_long_suspension)
    = [LogSuspending "victim" 77 2147484 2].
Proof.
  assert (root_synced host_long_suspension) as Hs by (vm_compute; repeat split).
  assert ((pax_segvguard_lookup (td_in prison0) victim (lookup_io env_ok)
             host_long_suspension).1 = Some victim_ptr) as Hl
    by (vm_compute; reflexivity).
  assert (deref host_long_suspension victim_ptr = Some victim_record) as He
    by (vm_compute; reflexivity).
  pose proof (root_scope_crash_uses_scope_settings (td_in prison0) victim
                "victim" env_ok host_long_suspension victim_ptr victim_record Hs
                eq_refl eq_refl eq_refl Hl He) as [Hd Hc].
  split; [exact Hd | exact Hc].
Defined.

(** The jail of the run is initialised from the root prison. *)
Lemma init_prison_copies_parent_witness :
  ∃ st', pax_segvguard_init_prison 1 boot = Some st'
         ∧ prisons st' !! 1%nat
           = Some (mk_prison (Some prison0) (pr_hbsd boot prison0)).
Proof.
  destruct (init_prison_copies_parent 1 prison0
              (mk_prison (Some prison0) zero_cfg) boot)
    as (st' & Hi & Hp & _);
    [done | vm_compute; reflexivity | reflexivity | vm_compute; eauto |].
  exists st'. split; [exact Hi | exact Hp].
Defined.

(** The first record of the victim is found again. The expiry of the host
    is 3000000 seconds here, and the countdown of the record is armed for
    the [int] that 3000000 * 1000 wraps around to. *)
Lemma lookup_finds_inserted_record_witness :
  (pax_segvguard_lookup (td_in prison0) victim io_ok
     (pax_segvguard_add (td_in prison0) victim 0 true io_ok host_long_expiry).2).1
  = Some victim_ptr
  ∧ ∃ e, deref (pax_segvguard_add (td_in prison0) victim 0 true io_ok
                  host_long_expiry).2 victim_ptr = Some e
         ∧ se_callout e = -1294967296.
Proof.
  destruct (lookup_finds_inserted_record (td_in prison0) victim 0 true io_ok
              io_ok host_long_expiry victim_ptr)
    as (Hl & _ & _ & e & He & _ & _ & Hco);
    [vm_compute; reflexivity | vm_compute; reflexivity | reflexivity |].
  split; [exact Hl |]. exists e. split; [exact He |].
  rewrite Hco. vm_compute. reflexivity.
Defined.

(** The check after the first crash of the victim on the host. *)
Lemma check_after_crash_witness :
  (pax_segvguard_check (td_in prison0) (Some victim) "victim" io_ok
     (pax_segvguard_segfault (td_in prison0) "victim" env_ok booted).2).1 = EPERM
  ↔ to_size_t booted.(pax_segvguard_maxcrashes)
    ≤ match records_of booted (identity_of (td_in prison0) victim) with
      | [] => 1
      | e :: _ => to_size_t (se_ncrashes e + 1)
      end.
Proof.
  apply (check_after_crash (td_in prison0) victim "victim" "victim" env_ok io_ok
           booted hbsd_EPERM booted_inv booted_length eq_refl eq_refl
           env_ok_succeeds eq_refl).
Defined.

(** Five crashes of the victim on the host, where the threshold is 5. *)
Lemma crashes_count_up_witness :
  (∃ e, records_of host_crashed5 (identity_of (td_in prison0) victim) = [e]
        ∧ se_ncrashes e = 5)
  ∧ ((pax_segvguard_check (td_in prison0) (Some victim) "victim" io_ok
        host_crashed5).1 = EPERM
     ↔ to_size_t booted.(pax_segvguard_maxcrashes) ≤ 5).
Proof.
  apply (crashes_count_up 5 (td_in prison0) victim "victim" "victim" env_ok io_ok
           booted hbsd_EPERM booted_inv booted_length eq_refl eq_refl
           env_ok_succeeds eq_refl);
    [vm_compute; reflexivity | lia | vm_compute; reflexivity].
Defined.

(** A crash of another user leaves the record of the victim's user alone. *)
Lemma segfault_leaves_other_identities_witness :
  records_of (pax_segvguard_segfault td_other "victim" env_ok host_crashed1).2
    (identity_of (td_in prison0) victim)
  = records_of host_crashed1 (identity_of (td_in prison0) victim).
Proof.
  apply (segfault_leaves_other_identities td_other "victim" env_ok host_crashed1).
  intros vn [= <-]. vm_compute. discriminate.
Defined.

(** The record of the victim expires. *)
Lemma expiry_starts_afresh_witness :
  records_of (pax_segvguard_cleaner victim_ptr host_crashed1)
    (identity victim_record) = []
  ∧ (pax_segvguard_check (td_in prison0) (Some victim) "victim" io_ok
       (pax_segvguard_cleaner victim_ptr host_crashed1)).1 = 0.
Proof.
  destruct (expiry_starts_afresh victim_ptr victim_record (td_in prison0) victim
              "victim" env_ok io_ok host_crashed1 host_crashed1_inv
              host_crashed1_length host_crashed1_victim)
    as (Hn & _ & _ & Hc & _);
    [vm_compute; reflexivity | reflexivity | reflexivity | apply env_ok_succeeds |].
  split; [exact Hn | exact Hc].
Defined.

(** The victim is set up on the host, which is in opt-in mode. *)
Lemma setup_flags_read_back_witness :
  pax_segvguard_active_td (exec_setup booted (mk_imgp victim) (td_in prison0) 0 0)
  = bool_decide (pax_segvguard_setup_flags booted (mk_imgp victim)
                   (td_in prison0) 0 0 = guard_active).
Proof.
  apply (setup_flags_read_back booted (mk_imgp victim) (td_in prison0) 0 0
           RunFacts.hbsd_bits_exclusive hbsd_SEGVGUARD).
Defined.

(** Before its initialisation the root prison has mode 0, disabled. *)
Lemma disabled_scope_is_never_guarded_witness :
  pax_segvguard_check (exec_setup boot (mk_imgp victim) (td_in prison0) 0 0)
    (Some victim) "victim" io_ok host_crashed5 = (0, host_crashed5).
Proof.
  apply (disabled_scope_is_never_guarded boot (mk_imgp victim) (td_in prison0)
           0 0 (Some victim) "victim" env_ok io_ok host_crashed5
           RunFacts.hbsd_bits_exclusive hbsd_SEGVGUARD).
  reflexivity.
Defined.

(** A binary that asks to be left alone is guarded on the forced host. *)
Lemma forced_scope_is_always_guarded_witness :
  pax_segvguard_active_td
    (exec_setup host_forced (mk_imgp victim) (td_in prison0)
       PAX_NOTE_NOSEGVGUARD 0) = true.
Proof.
  apply (forced_scope_is_always_guarded host_forced (mk_imgp victim)
           (td_in prison0) PAX_NOTE_NOSEGVGUARD 0 RunFacts.hbsd_modes_distinct
           RunFacts.hbsd_bits_exclusive).
  vm_compute. reflexivity.
Defined.

(** A thread whose guard is inactive crashes. *)
Lemma segfault_outcome_witness :
  (pax_segvguard_segfault (with_pax guard_inactive (td_in prison0)) "victim"
     env_ok booted).2 = booted.
Proof.
  apply (segfault_outcome (with_pax guard_inactive (td_in prison0)) "victim"
           env_ok booted).
  reflexivity.
Defined.

(** With [max_crashes] at -1 the victim is allowed. *)
Lemma negative_threshold_never_denies_witness :
  pax_segvguard_maxcrashes host_negative = -1
  ∧ (pax_segvguard_check (td_in prison0) (Some victim) "victim" io_ok
       host_negative).1 = 0.
Proof.
  split; [reflexivity |].
  apply (negative_threshold_never_denies (td_in prison0) victim "victim" io_ok
           host_negative).
  - vm_compute. discriminate.
  - vm_compute. split; [discriminate | reflexivity].
  - apply Forall_forall. apply (bool_decide_unpack _). vm_compute. reflexivity.
Defined.


(** The check after five crashes prints its line. *)
Lemma check_prints_denials_only_witness :
  console (pax_segvguard_check (td_in prison0) (Some victim) "victim" io_ok
             host_crashed5).2
  = console host_crashed5
    ++ (if bool_decide ((pax_segvguard_check (td_in prison0) (Some victim)
                           "victim" io_ok host_crashed5).1 = EPERM)
        then [LogPreventing "victim" (p_pid (td_in prison0))] else []).
Proof.
  apply (check_prints_denials_only (td_in prison0) victim "victim" io_ok
           host_crashed5 hbsd_EPERM).
  reflexivity.
Defined.

End BehaviourFacts.
